(** * WASMRenderBench: the wireframe viewer's application layer

    A shallow embedding of [src/main.c]: the [SoftwareRenderer] state, the
    [init] / [update] / [draw] callbacks handed to [CCanvas_create], the
    input handlers and the two helpers [calculateSceneRadius] and
    [calculateCameraPosAndSpeed].

    The program is written once, over an interface for the arithmetic of the
    C type [double].  Two instances are given:
    - [B64]: IEEE-754 binary64 ([SpecFloat] with [prec = 53], [emax = 1024]),
      which is what the compiled program computes with; it is executable and
      has NaN, infinities, signed zeros and rounding;
    - [Exact]: the real numbers with a value for "not a number", without
      rounding: the arithmetic of the sample world, and of lemmas that say
      what the formulas give when nothing is rounded.  What is stated of
      the program is stated for every arithmetic or for [B64].

    [vec3.c], [camera.c], [scene.c] and [ccanvas.c] are not part of the
    sources at hand.  What [main.c] needs of them is either modelled from the
    specification (each such definition says so) or taken as a field of
    [Collaborators], so that every theorem holds for any implementation. *)

From Stdlib Require Import ZArith List String Bool Lia.
From Stdlib Require Import SpecFloat.
From Stdlib Require Import Reals Lra Psatz.
Import ListNotations.
Local Open Scope Z_scope.

(** ** The arithmetic of [double] *)

(** The operations of C on [double] that the program uses: conversion of an
    integer value, the four arithmetic operators, [sqrt], and the operator
    [!=]. *)
Class Arith (D : Type) : Type := {
  of_int : Z -> D;
  dadd : D -> D -> D;
  dsub : D -> D -> D;
  dmul : D -> D -> D;
  ddiv : D -> D -> D;
  dsqrt : D -> D;
  dneq : D -> D -> bool
}.

(** The functions of [<math.h>] reached from [main.c]: [pow] in [update],
    [cos] and [sin] through [Vec3_cylindrical]. *)
Class Libm (D : Type) : Type := {
  dcos : D -> D;
  dsin : D -> D;
  dpow : D -> D -> D
}.

(** The macro [NAN] of [<math.h>], converted to [double]. *)
Class HasNaN (D : Type) : Type := { NAN : D }.

Declare Scope double_scope.
Delimit Scope double_scope with D.
Infix "+" := dadd : double_scope.
Infix "-" := dsub : double_scope.
Infix "*" := dmul : double_scope.
Infix "/" := ddiv : double_scope.

(** A decimal literal [n / 10^k] written as the quotient of two integers: in
    binary64 the correctly rounded quotient of two exactly representable
    integers is the double nearest to the decimal, which is the value a C
    compiler gives the literal. *)
Definition lit {D} `{Arith D} (n d : Z) : D := (of_int n / of_int d)%D.

(** *** IEEE-754 binary64 *)

Module B64.

Definition prec : Z := 53.
Definition emax : Z := 1024.

Definition double : Type := spec_float.

Definition of_Z (z : Z) : double := binary_normalize prec emax z 0 false.

(** [x != y] is the negation of [x == y]; [==] is false as soon as one
    operand is a NaN. *)
Definition neq (u v : double) : bool := negb (SFeqb u v).

Definition is_nan (u : double) : bool :=
  match u with S754_nan => true | _ => false end.

#[global] Instance arith : Arith double := {|
  of_int := of_Z;
  dadd := SFadd prec emax;
  dsub := SFsub prec emax;
  dmul := SFmul prec emax;
  ddiv := SFdiv prec emax;
  dsqrt := SFsqrt prec emax;
  dneq := neq
|}.

#[global] Instance nan : HasNaN double := {| NAN := S754_nan |}.

End B64.

(** *** Exact arithmetic *)

(** The real numbers with one more value, [None], for a result that is not a
    real number (in IEEE terms a NaN or an infinity): no rounding, no
    overflow.  A value that is not a number propagates through every
    operation and, as in IEEE arithmetic, compares different from
    everything. *)
Module Exact.

Definition double : Type := option R.

Definition lift1 (f : R -> R) (u : double) : double :=
  match u with Some p => Some (f p) | None => None end.

Definition lift2 (f : R -> R -> R) (u v : double) : double :=
  match u, v with Some p, Some q => Some (f p q) | _, _ => None end.

Definition div (u v : double) : double :=
  match u, v with
  | Some p, Some q => if Req_dec_T q 0 then None else Some (p / q)%R
  | _, _ => None
  end.

Definition sqrt (u : double) : double :=
  match u with
  | Some p => if Rlt_dec p 0 then None else Some (R_sqrt.sqrt p)
  | None => None
  end.

Definition neq (u v : double) : bool :=
  match u, v with
  | Some p, Some q => if Req_dec_T p q then false else true
  | _, _ => true
  end.

(** [pow] on a positive base, and its two exact cases [p^0 = 1] and
    [0^q = 0] for [q > 0]; the program only raises the constant [0.00001]
    to a power. *)
Definition pow (u v : double) : double :=
  match u, v with
  | Some p, Some q =>
      if Rlt_dec 0 p then Some (Rpower p q)
      else if Req_dec_T q 0 then Some 1%R
      else if Req_dec_T p 0 then (if Rlt_dec 0 q then Some 0%R else None)
      else None
  | _, _ => None
  end.

#[global] Instance arith : Arith double := {|
  of_int := fun z => Some (IZR z);
  dadd := lift2 Rplus;
  dsub := lift2 Rminus;
  dmul := lift2 Rmult;
  ddiv := div;
  dsqrt := sqrt;
  dneq := neq
|}.

#[global] Instance libm : Libm double := {|
  dcos := lift1 cos;
  dsin := lift1 sin;
  dpow := pow
|}.

#[global] Instance nan : HasNaN double := {| NAN := None |}.

End Exact.

(** ** Data *)

Definition Uint32_modulus : Z := 2 ^ 32.

(** Conversion to [Uint32]: the value modulo [2^32]. *)
Definition u32 (z : Z) : Z := z mod Uint32_modulus.

(** [Vec3]: three doubles (specification, section 3). *)
Record Vec3 (D : Type) : Type := mkVec3 { vx : D; vy : D; vz : D }.
Arguments mkVec3 {D} _ _ _.
Arguments vx {D} _.
Arguments vy {D} _.
Arguments vz {D} _.

(** [Point]: a projected point; [main.c] reads its members [x] and [y]. *)
Record Point (D : Type) : Type := mkPoint { x : D; y : D }.
Arguments mkPoint {D} _ _.
Arguments x {D} _.
Arguments y {D} _.

(** [Edge]: a pair of indices into the vertex and projected-point buffers;
    [main.c] reads its members [a] and [b]. *)
Record Edge : Type := mkEdge { a : nat; b : nat }.

(** [Camera]: [main.c] reads the members [pos] and [up]; the remaining ones
    are named after the specification (section 3). *)
Record Camera (D : Type) : Type := mkCamera {
  pos : Vec3 D;
  up : Vec3 D;
  lookDirection : Vec3 D;
  viewportWidth : Z;
  viewportHeight : Z;
  fovHorizontal : D;
  fovVertical : D
}.
Arguments mkCamera {D} _ _ _ _ _ _ _.
Arguments pos {D} _.
Arguments up {D} _.
Arguments lookDirection {D} _.
Arguments viewportWidth {D} _.
Arguments viewportHeight {D} _.
Arguments fovHorizontal {D} _.
Arguments fovVertical {D} _.

(** [Scene]: the buffers with their counts ([edgeCount] is the length of
    [edges]) and the camera [cam]. *)
Record Scene (D : Type) : Type := mkScene {
  vertices : list (Vec3 D);
  edges : list Edge;
  projectedPoints : list (Point D);
  cam : Camera D
}.
Arguments mkScene {D} _ _ _ _.
Arguments vertices {D} _.
Arguments edges {D} _.
Arguments projectedPoints {D} _.
Arguments cam {D} _.

(** [struct SoftwareRenderer] *)
Record SoftwareRenderer (D : Type) : Type := mkSoftwareRenderer {
  scene : Scene D;
  vel : Vec3 D;
  moveForce : D;
  movingForward : bool;
  movingBackward : bool;
  movingLeft : bool;
  movingRight : bool;
  movingUp : bool;
  movingDown : bool;
  sceneRadius : D;
  lastInput : Z;
  currentTick : Z
}.
Arguments mkSoftwareRenderer {D} _ _ _ _ _ _ _ _ _ _ _ _.
Arguments scene {D} _.
Arguments vel {D} _.
Arguments moveForce {D} _.
Arguments movingForward {D} _.
Arguments movingBackward {D} _.
Arguments movingLeft {D} _.
Arguments movingRight {D} _.
Arguments movingUp {D} _.
Arguments movingDown {D} _.
Arguments sceneRadius {D} _.
Arguments lastInput {D} _.
Arguments currentTick {D} _.

Record Color : Type := rgb { red : Z; green : Z; blue : Z }.

(** A line handed to [CCanvas_preciseLine]: its four coordinates. *)
Record Segment (D : Type) : Type := mkSegment { x1 : D; y1 : D; x2 : D; y2 : D }.
Arguments mkSegment {D} _ _ _ _.

(** The five callbacks a canvas can watch. *)
Record Watchers : Type := mkWatchers {
  watchKeyDown : bool;
  watchKeyUp : bool;
  watchMouseButtonDown : bool;
  watchMouseMove : bool;
  watchFileDrop : bool
}.

(** [CCanvas]: the application data behind the pointer [data], the two
    colours, what has been drawn since the last [CCanvas_clear], the set of
    registered callbacks, and SDL's relative mouse mode. *)
Record CCanvas (D : Type) : Type := mkCCanvas {
  data : SoftwareRenderer D;
  bgColor : Color;
  brushColor : Color;
  drawn : list (Segment D);
  watchers : Watchers;
  relativeMouseMode : bool
}.
Arguments mkCCanvas {D} _ _ _ _ _ _.
Arguments data {D} _.
Arguments bgColor {D} _.
Arguments brushColor {D} _.
Arguments drawn {D} _.
Arguments watchers {D} _.
Arguments relativeMouseMode {D} _.

(** ** Record updates, one per member that [main.c] assigns *)

Section Setters.
Context {D : Type}.

Definition set_pos (c : Camera D) (p : Vec3 D) : Camera D :=
  mkCamera p (up c) (lookDirection c) (viewportWidth c) (viewportHeight c)
           (fovHorizontal c) (fovVertical c).

Definition set_lookDirection (c : Camera D) (d : Vec3 D) : Camera D :=
  mkCamera (pos c) (up c) d (viewportWidth c) (viewportHeight c)
           (fovHorizontal c) (fovVertical c).

Definition set_cam (s : Scene D) (c : Camera D) : Scene D :=
  mkScene (vertices s) (edges s) (projectedPoints s) c.

Definition set_projectedPoints (s : Scene D) (pp : list (Point D)) : Scene D :=
  mkScene (vertices s) (edges s) pp (cam s).

Definition set_scene (app : SoftwareRenderer D) (s : Scene D) : SoftwareRenderer D :=
  mkSoftwareRenderer s (vel app) (moveForce app)
    (movingForward app) (movingBackward app) (movingLeft app)
    (movingRight app) (movingUp app) (movingDown app)
    (sceneRadius app) (lastInput app) (currentTick app).

Definition set_vel (app : SoftwareRenderer D) (v : Vec3 D) : SoftwareRenderer D :=
  mkSoftwareRenderer (scene app) v (moveForce app)
    (movingForward app) (movingBackward app) (movingLeft app)
    (movingRight app) (movingUp app) (movingDown app)
    (sceneRadius app) (lastInput app) (currentTick app).

Definition set_moveForce (app : SoftwareRenderer D) (f : D) : SoftwareRenderer D :=
  mkSoftwareRenderer (scene app) (vel app) f
    (movingForward app) (movingBackward app) (movingLeft app)
    (movingRight app) (movingUp app) (movingDown app)
    (sceneRadius app) (lastInput app) (currentTick app).

Definition set_sceneRadius (app : SoftwareRenderer D) (r : D) : SoftwareRenderer D :=
  mkSoftwareRenderer (scene app) (vel app) (moveForce app)
    (movingForward app) (movingBackward app) (movingLeft app)
    (movingRight app) (movingUp app) (movingDown app)
    r (lastInput app) (currentTick app).

Definition set_lastInput (app : SoftwareRenderer D) (t : Z) : SoftwareRenderer D :=
  mkSoftwareRenderer (scene app) (vel app) (moveForce app)
    (movingForward app) (movingBackward app) (movingLeft app)
    (movingRight app) (movingUp app) (movingDown app)
    (sceneRadius app) t (currentTick app).

Definition set_currentTick (app : SoftwareRenderer D) (t : Z) : SoftwareRenderer D :=
  mkSoftwareRenderer (scene app) (vel app) (moveForce app)
    (movingForward app) (movingBackward app) (movingLeft app)
    (movingRight app) (movingUp app) (movingDown app)
    (sceneRadius app) (lastInput app) t.

(** The six movement flags, in the order of the struct. *)
Definition set_moving (app : SoftwareRenderer D)
    (fwd bwd lft rgt upw dwn : bool) : SoftwareRenderer D :=
  mkSoftwareRenderer (scene app) (vel app) (moveForce app)
    fwd bwd lft rgt upw dwn
    (sceneRadius app) (lastInput app) (currentTick app).

Definition set_data (cnv : CCanvas D) (app : SoftwareRenderer D) : CCanvas D :=
  mkCCanvas app (bgColor cnv) (brushColor cnv) (drawn cnv) (watchers cnv)
            (relativeMouseMode cnv).

Definition set_drawn (cnv : CCanvas D) (l : list (Segment D)) : CCanvas D :=
  mkCCanvas (data cnv) (bgColor cnv) (brushColor cnv) l (watchers cnv)
            (relativeMouseMode cnv).

Definition set_watchers (cnv : CCanvas D) (w : Watchers) : CCanvas D :=
  mkCCanvas (data cnv) (bgColor cnv) (brushColor cnv) (drawn cnv) w
            (relativeMouseMode cnv).

(** [SDL_SetRelativeMouseMode] *)
Definition SDL_SetRelativeMouseMode (cnv : CCanvas D) (m : bool) : CCanvas D :=
  mkCCanvas (data cnv) (bgColor cnv) (brushColor cnv) (drawn cnv) (watchers cnv) m.

(** [SDL_GetRelativeMouseMode] *)
Definition SDL_GetRelativeMouseMode (cnv : CCanvas D) : bool :=
  relativeMouseMode cnv.

Definition CCanvas_setBgColor (cnv : CCanvas D) (c : Color) : CCanvas D :=
  mkCCanvas (data cnv) c (brushColor cnv) (drawn cnv) (watchers cnv)
            (relativeMouseMode cnv).

Definition CCanvas_setBrushColor (cnv : CCanvas D) (c : Color) : CCanvas D :=
  mkCCanvas (data cnv) (bgColor cnv) c (drawn cnv) (watchers cnv)
            (relativeMouseMode cnv).

(** [CCanvas_clear]: nothing is drawn any more. *)
Definition CCanvas_clear (cnv : CCanvas D) : CCanvas D := set_drawn cnv [].

(** [CCanvas_preciseLine]: one more line, after the ones drawn so far. *)
Definition CCanvas_preciseLine (cnv : CCanvas D) (xa ya xb yb : D) : CCanvas D :=
  set_drawn cnv (drawn cnv ++ [mkSegment xa ya xb yb]).

End Setters.

(** ** What [main.c] takes from the files that are not at hand *)

(** The functions of [camera.c] and [scene.c] whose bodies the specification
    leaves open (a fallback "to be decided", "an equivalent convention",
    "pick one"), the parser of the model file, and three values the
    specification does not fix: the axis a new camera looks down, the camera
    [Scene_erase] installs, and the content of a projected-point slot that has
    been allocated but not yet written.  The two direction queries and the
    projection read the camera; the specification describes them as returning
    a value. *)
Class Collaborators (D : Type) : Type := {
  Camera_directionForwardHorizontal : Camera D -> Vec3 D;
  Camera_directionRight : Camera D -> Vec3 D;
  Camera_turnRight : Camera D -> D -> Camera D;
  Camera_tiltDown : Camera D -> D -> Camera D;
  Camera_project : Camera D -> Vec3 D -> Point D;
  Scene_radius : Scene D -> D;
  parseObj : string -> option (list (Vec3 D) * list Edge);
  defaultLookDirection : Vec3 D;
  eraseCamera : Camera D;
  freshPoint : Point D
}.

(** ** [vec3.c], from the specification *)

Section Vec3Ops.
Context {D : Type} {ar : Arith D}.
Local Open Scope double_scope.

(** Modelled from the spec: [Vec3_new] is absent from the sources; section
    3 gives a vector its three components. *)
Definition Vec3_new (x0 y0 z0 : D) : Vec3 D := mkVec3 x0 y0 z0.

(** Modelled from the spec: [Vec3_copy] is absent from the sources; a
    vector is a value type (section 3). *)
Definition Vec3_copy (v : Vec3 D) : Vec3 D := v.

(** Modelled from the spec: [Vec3_add] is absent from the sources; section
    4.1, [add], mutating its first argument. *)
Definition Vec3_add (v w : Vec3 D) : Vec3 D :=
  mkVec3 (vx v + vx w) (vy v + vy w) (vz v + vz w).

(** Modelled from the spec: [Vec3_sub] is absent from the sources; section
    4.1, [subtract]. *)
Definition Vec3_sub (v w : Vec3 D) : Vec3 D :=
  mkVec3 (vx v - vx w) (vy v - vy w) (vz v - vz w).

(** Modelled from the spec: [Vec3_mult] is absent from the sources; section
    4.1, [scale(scalar)]. *)
Definition Vec3_mult (v : Vec3 D) (k : D) : Vec3 D :=
  mkVec3 (vx v * k) (vy v * k) (vz v * k).

(** Modelled from the spec: [Vec3_sqLength] is absent from the sources;
    section 4.1, [squaredLength]. *)
Definition Vec3_sqLength (v : Vec3 D) : D :=
  vx v * vx v + vy v * vy v + vz v * vz v.

(** Modelled from the spec: [Vec3_length] is absent from the sources;
    section 4.1, [length]. *)
Definition Vec3_length (v : Vec3 D) : D := dsqrt (Vec3_sqLength v).

(** Modelled from the spec: [Vec3_setLength] is absent from the sources;
    section 4.1, [setLength(target)]: "rescales to the given magnitude;
    no-op ... when current length is zero". *)
Definition Vec3_setLength (v : Vec3 D) (target : D) : Vec3 D :=
  let len := Vec3_length v in
  if dneq len (of_int 0) then Vec3_mult v (target / len) else v.

(** Modelled from the spec: [Vec3_cylindrical] is absent from the sources;
    section 4.1, [fromCylindrical(radius, angle, height)] produces
    [(radius*cos(angle), height, radius*sin(angle))]. *)
Definition Vec3_cylindrical {lm : Libm D} (radius angle height : D) : Vec3 D :=
  Vec3_new (radius * dcos angle) height (radius * dsin angle).

End Vec3Ops.

(** ** [camera.c] and [scene.c], from the specification *)

Section CameraSceneOps.
Context {D : Type} {ar : Arith D} {co : Collaborators D}.

(** Modelled from the spec: [Camera_new] is absent from the sources; the
    camera of section 3 with the members given at the call in [init], in
    the order position, up, viewport width and height, horizontal and
    vertical field of view; it looks down a fixed axis (section 4.3). *)
Definition Camera_new (p u : Vec3 D) (w h : Z) (fovH fovV : D) : Camera D :=
  mkCamera p u defaultLookDirection w h fovH fovV.

(** Modelled from the spec: [Camera_setLookDirection] is absent from the
    sources; section 4.2: "sets forward directly to a normalized copy of
    direction". *)
Definition Camera_setLookDirection (c : Camera D) (d : Vec3 D) : Camera D :=
  set_lookDirection c (Vec3_setLength (Vec3_copy d) (of_int 1)).

(** Modelled from the spec: [Scene_erase] is absent from the sources;
    section 4.3: "clears vertices/edges, installs a default Camera". *)
Definition Scene_erase (s : Scene D) : Scene D :=
  mkScene [] [] [] eraseCamera.

(** Modelled from the spec: [Scene_setCamera] is absent from the sources;
    section 4.3: "replaces the active camera wholesale". *)
Definition Scene_setCamera (s : Scene D) (c : Camera D) : Scene D :=
  set_cam s c.

(** Modelled from the spec: [Scene_free] is absent from the sources;
    section 3: "releases the vertex, edge, and projected-point buffers".
    A released buffer holds nothing. *)
Definition Scene_free (s : Scene D) : Scene D :=
  mkScene [] [] [] (cam s).

(** Modelled from the spec: [Scene_loadObj] is absent from the sources;
    sections 4.3 and 6: the parser returns a vertex list and an edge list
    or a failure; on success they replace the scene's, with a
    projected-point buffer of the length of the vertices (the invariant of
    section 3); on failure the scene stays as it was handed over. *)
Definition Scene_loadObj (s : Scene D) (fileName : string) : Scene D :=
  match parseObj fileName with
  | Some (vs, es) => mkScene vs es (map (fun _ => freshPoint) vs) (cam s)
  | None => s
  end.

(** Modelled from the spec: [Scene_projectPoints] is absent from the
    sources; section 4.3, [project()]: "for every vertex, calls
    Camera.project; stores ... the resulting screen point ... at the same
    index in projectedPoints". *)
Definition Scene_projectPoints (s : Scene D) : Scene D :=
  set_projectedPoints s (map (Camera_project (cam s)) (vertices s)).

End CameraSceneOps.

(** ** [main.c] *)

(** Key and button codes of SDL2 ([SDL_keycode.h], [SDL_mouse.h]). *)
Definition SDLK_w : Z := 119.
Definition SDLK_s : Z := 115.
Definition SDLK_a : Z := 97.
Definition SDLK_d : Z := 100.
Definition SDLK_SPACE : Z := 32.
Definition SDLK_ESCAPE : Z := 27.
Definition SDLK_LSHIFT : Z := 1073742049.
Definition SDL_BUTTON_LEFT : Z := 1.

(** The four dimensions [main] hands to [CCanvas_create]. *)
Record Dimensions : Type := mkDimensions {
  windowWidth : Z; windowHeight : Z; canvasWidth : Z; canvasHeight : Z
}.

Definition main_dimensions : Dimensions := mkDimensions 512 512 512 512.

(** The idle time, in ticks, after which [update] repositions the camera. *)
Definition idleThreshold : Z := 10000.

Section Main.
Context {D : Type} {ar : Arith D} {lm : Libm D} {co : Collaborators D}.
Local Open Scope double_scope.

(** [calculateSceneRadius] *)
Definition calculateSceneRadius (app : SoftwareRenderer D) : SoftwareRenderer D :=
  let scene0 := scene app in
  set_sceneRadius app (Scene_radius scene0).

(** [calculateCameraPosAndSpeed]; [ticks] is what [SDL_GetTicks] returns
    inside it. *)
Definition calculateCameraPosAndSpeed (ticks : Z) (app : SoftwareRenderer D)
    : SoftwareRenderer D :=
  let scene0 := scene app in
  let cam0 := cam scene0 in
  let r := sceneRadius app in
  let angle := of_int (u32 ticks) / of_int 2000 in
  let newPos := Vec3_cylindrical r angle (r / lit 12 10) in
  let newDirection := Vec3_copy newPos in
  let newDirection := Vec3_setLength newDirection (of_int (-1)) in
  let cam1 := Camera_setLookDirection cam0 newDirection in
  set_scene app (set_cam scene0 (set_pos cam1 newPos)).

(** [init], up to and including the call of [Scene_setCamera]. *)
Definition init_defaults (ticks : Z) (cnv : CCanvas D) : CCanvas D :=
  let app := data cnv in
  let app := set_currentTick app (u32 ticks) in
  let app := set_lastInput app (currentTick app) in
  let cnv := CCanvas_setBgColor cnv (rgb 0 0 0) in
  let cnv := CCanvas_setBrushColor cnv (rgb 255 255 255) in
  let app := set_vel app (Vec3_new (of_int 0) (of_int 0) (of_int 0)) in
  let app := set_moveForce app (of_int 1) in
  let app := set_moving app false false false false false false in
  let app := set_scene app (Scene_erase (scene app)) in
  let app :=
    set_scene app
      (Scene_setCamera (scene app)
         (Camera_new (Vec3_new (of_int 0) (of_int 0) (of_int 0))
                     (Vec3_new (of_int 0) (of_int 1) (of_int 0))
                     512 512
                     (lit 314 100 / of_int 3) (lit 314 100 / of_int 3))) in
  set_data cnv app.

(** [init]; [ticks] and [ticks'] are the two readings of [SDL_GetTicks],
    the second one inside [calculateCameraPosAndSpeed]. *)
Definition init (ticks ticks' : Z) (cnv : CCanvas D) : CCanvas D :=
  let cnv := init_defaults ticks cnv in
  let app := data cnv in
  let app := set_scene app (Scene_loadObj (scene app) "base_scene.obj") in
  let app := calculateSceneRadius app in
  let app := calculateCameraPosAndSpeed ticks' app in
  set_watchers (set_data cnv app) (mkWatchers true true true true true).

(** [update], lines 91 to 97: the sum of the horizontal directions whose
    flag is set. *)
Definition update_horizontal (app : SoftwareRenderer D) : Vec3 D :=
  let scene0 := scene app in
  let force := Vec3_new (of_int 0) (of_int 0) (of_int 0) in
  let temp := Camera_directionForwardHorizontal (cam scene0) in
  let force := if movingForward app then Vec3_add force temp else force in
  let force := if movingBackward app then Vec3_sub force temp else force in
  let temp := Camera_directionRight (cam scene0) in
  let force := if movingRight app then Vec3_add force temp else force in
  let force := if movingLeft app then Vec3_sub force temp else force in
  force.

(** [update], line 98. *)
Definition update_normalise (force : Vec3 D) : Vec3 D :=
  if dneq (Vec3_sqLength force) (of_int 0)
  then Vec3_setLength force (of_int 1)
  else force.

(** [update], lines 91 to 101: the direction of the force, that is the
    rescaled horizontal part and then the vertical part. *)
Definition update_direction (app : SoftwareRenderer D) : Vec3 D :=
  let scene0 := scene app in
  let force := update_normalise (update_horizontal app) in
  let force := if movingUp app then Vec3_add force (up (cam scene0)) else force in
  let force := if movingDown app then Vec3_sub force (up (cam scene0)) else force in
  force.

(** [update], lines 103 and 104: the force, scaled to the size of the
    scene. *)
Definition update_force (dt : D) (app : SoftwareRenderer D) : Vec3 D :=
  Vec3_mult (update_direction app) (sceneRadius app * dt * moveForce app * lit 1 100).

(** [update], lines 89 to 112: the tick, the velocity and the position. *)
Definition update_move (dt : D) (ticks : Z) (app : SoftwareRenderer D)
    : SoftwareRenderer D :=
  let app := set_currentTick app (u32 ticks) in
  let scene0 := scene app in
  let force := update_force dt app in
  let app := set_vel app (Vec3_add (vel app) force) in
  let app := set_vel app (Vec3_mult (vel app) (dpow (lit 1 100000) (dt / of_int 1000))) in
  let displacement := Vec3_copy (vel app) in
  let displacement := Vec3_mult displacement (dt / of_int 1000) in
  set_scene app
    (set_cam scene0 (set_pos (cam scene0) (Vec3_add (pos (cam scene0)) displacement))).

(** The test of line 114, on [Uint32]. *)
Definition idle (app : SoftwareRenderer D) : bool :=
  idleThreshold <? u32 (currentTick app - lastInput app).

(** [update]; [ticks] is the reading of [SDL_GetTicks] at its start and
    [ticks'] the one inside [calculateCameraPosAndSpeed]. *)
Definition update (dt : D) (ticks ticks' : Z) (cnv : CCanvas D) : CCanvas D :=
  let app := update_move dt ticks (data cnv) in
  let app := if idle app then calculateCameraPosAndSpeed ticks' app else app in
  set_data cnv (set_scene app (Scene_projectPoints (scene app))).

(** [onMouseButtonDown] *)
Definition onMouseButtonDown (cnv : CCanvas D) (button mx my : Z) : CCanvas D :=
  let app := data cnv in
  let cnv := set_data cnv (set_lastInput app (currentTick app)) in
  if button =? SDL_BUTTON_LEFT
  then if negb (SDL_GetRelativeMouseMode cnv)
       then SDL_SetRelativeMouseMode cnv true else cnv
  else cnv.

(** [onMouseMove] *)
Definition onMouseMove (cnv : CCanvas D) (dx dy : Z) : CCanvas D :=
  let app := data cnv in
  let app := set_lastInput app (currentTick app) in
  let scene0 := scene app in
  let cam1 := Camera_turnRight (cam scene0) (of_int dx / of_int 1000) in
  let cam2 := Camera_tiltDown cam1 (of_int dy / of_int 1000) in
  set_data cnv (set_scene app (set_cam scene0 cam2)).

(** [onFileDrop]; [ticks] is the reading of [SDL_GetTicks] inside
    [calculateCameraPosAndSpeed]. *)
Definition onFileDrop (ticks : Z) (cnv : CCanvas D) (fileName : string) : CCanvas D :=
  let app := data cnv in
  let app := set_scene app (Scene_free (scene app)) in
  let app := set_scene app (Scene_loadObj (scene app) fileName) in
  let app := calculateSceneRadius app in
  let app := calculateCameraPosAndSpeed ticks app in
  set_data cnv app.

(** [onKeyDown] *)
Definition onKeyDown (cnv : CCanvas D) (code : Z) : CCanvas D :=
  let app := data cnv in
  let app := set_lastInput app (currentTick app) in
  let fwd := movingForward app in
  let bwd := movingBackward app in
  let lft := movingLeft app in
  let rgt := movingRight app in
  let upw := movingUp app in
  let dwn := movingDown app in
  if code =? SDLK_w then set_data cnv (set_moving app true bwd lft rgt upw dwn)
  else if code =? SDLK_s then set_data cnv (set_moving app fwd true lft rgt upw dwn)
  else if code =? SDLK_a then set_data cnv (set_moving app fwd bwd true rgt upw dwn)
  else if code =? SDLK_d then set_data cnv (set_moving app fwd bwd lft true upw dwn)
  else if code =? SDLK_SPACE then set_data cnv (set_moving app fwd bwd lft rgt true dwn)
  else if code =? SDLK_LSHIFT then set_data cnv (set_moving app fwd bwd lft rgt upw true)
  else if code =? SDLK_ESCAPE then SDL_SetRelativeMouseMode (set_data cnv app) false
  else set_data cnv app.

(** [onKeyUp] *)
Definition onKeyUp (cnv : CCanvas D) (code : Z) : CCanvas D :=
  let app := data cnv in
  let app := set_lastInput app (currentTick app) in
  let fwd := movingForward app in
  let bwd := movingBackward app in
  let lft := movingLeft app in
  let rgt := movingRight app in
  let upw := movingUp app in
  let dwn := movingDown app in
  if code =? SDLK_ESCAPE then SDL_SetRelativeMouseMode (set_data cnv app) false
  else if code =? SDLK_w then set_data cnv (set_moving app false bwd lft rgt upw dwn)
  else if code =? SDLK_s then set_data cnv (set_moving app fwd false lft rgt upw dwn)
  else if code =? SDLK_a then set_data cnv (set_moving app fwd bwd false rgt upw dwn)
  else if code =? SDLK_d then set_data cnv (set_moving app fwd bwd lft false upw dwn)
  else if code =? SDLK_SPACE then set_data cnv (set_moving app fwd bwd lft rgt false dwn)
  else if code =? SDLK_LSHIFT then set_data cnv (set_moving app fwd bwd lft rgt upw false)
  else set_data cnv app.

(** *** [draw] *)

Context {nn : HasNaN D}.

(** The body of the loop of [draw] for the edge [e].  Reading
    [projectedPoints] past its end is undefined behaviour: [None].  The
    operands of [&&] are evaluated from left to right, and the evaluation
    stops at the first one that is false. *)
Definition draw_edge (pp : list (Point D)) (e : Edge) (cnv : CCanvas D)
    : option (CCanvas D) :=
  match nth_error pp (a e) with
  | None => None
  | Some pa =>
      if dneq (x pa) NAN then
        match nth_error pp (b e) with
        | None => None
        | Some pb =>
            if dneq (x pb) NAN && dneq (y pa) NAN && dneq (y pb) NAN
            then Some (CCanvas_preciseLine cnv (x pa) (y pa) (x pb) (y pb))
            else Some cnv
        end
      else Some cnv
  end.

(** The loop of [draw] over the edges that are left. *)
Fixpoint draw_edges (pp : list (Point D)) (es : list Edge) (cnv : CCanvas D)
    : option (CCanvas D) :=
  match es with
  | [] => Some cnv
  | e :: rest =>
      match draw_edge pp e cnv with
      | Some cnv' => draw_edges pp rest cnv'
      | None => None
      end
  end.

(** [draw] *)
Definition draw (cnv : CCanvas D) : option (CCanvas D) :=
  let app := data cnv in
  let scene0 := scene app in
  let cnv := CCanvas_clear cnv in
  draw_edges (projectedPoints scene0) (edges scene0) cnv.

(** *** The main loop *)

(** What the host delivers to the program after [init]. *)
Inductive Event : Type :=
| EvKeyDown (code : Z)
| EvKeyUp (code : Z)
| EvMouseButtonDown (button mx my : Z)
| EvMouseMove (dx dy : Z)
| EvFileDrop (fileName : string) (ticks : Z)
| EvUpdate (dt : D) (ticks ticks' : Z)
| EvDraw.

(** Modelled from the spec: the loop of [CCanvas_create] is absent from the
    sources; sections 5 and 6: discrete events go to the callback that
    watches them (an event nobody watches is dropped), and the frame
    callbacks [update] and [draw] are called in turn. *)
Definition dispatch (ev : Event) (cnv : CCanvas D) : option (CCanvas D) :=
  match ev with
  | EvKeyDown code =>
      Some (if watchKeyDown (watchers cnv) then onKeyDown cnv code else cnv)
  | EvKeyUp code =>
      Some (if watchKeyUp (watchers cnv) then onKeyUp cnv code else cnv)
  | EvMouseButtonDown button mx my =>
      Some (if watchMouseButtonDown (watchers cnv)
            then onMouseButtonDown cnv button mx my else cnv)
  | EvMouseMove dx dy =>
      Some (if watchMouseMove (watchers cnv) then onMouseMove cnv dx dy else cnv)
  | EvFileDrop fileName ticks =>
      Some (if watchFileDrop (watchers cnv) then onFileDrop ticks cnv fileName else cnv)
  | EvUpdate dt ticks ticks' => Some (update dt ticks ticks' cnv)
  | EvDraw => draw cnv
  end.

(** The events of a list, delivered in order. *)
Fixpoint run (evs : list Event) (cnv : CCanvas D) : option (CCanvas D) :=
  match evs with
  | [] => Some cnv
  | ev :: rest =>
      match dispatch ev cnv with
      | Some cnv' => run rest cnv'
      | None => None
      end
  end.

(** The states the program can be in: the one [init] leaves, whatever the
    memory held before, and those reached from it by an event. *)
Inductive reachable : CCanvas D -> Prop :=
| reachable_init : forall ticks ticks' cnv0,
    reachable (init ticks ticks' cnv0)
| reachable_step : forall ev cnv cnv',
    reachable cnv -> dispatch ev cnv = Some cnv' -> reachable cnv'.

End Main.

(** ** Notions the statements use *)

Section Notions.
Context {D : Type}.

(** Memory before [init] has run, here with every member zero; [init]
    does not depend on it ([init_overwrites] below). *)
Definition zeroed {ar : Arith D} : CCanvas D :=
  let o := of_int 0 in
  let v := mkVec3 o o o in
  mkCCanvas
    (mkSoftwareRenderer (mkScene [] [] [] (mkCamera v v v 0 0 o o)) v o
       false false false false false false o 0 0)
    (rgb 0 0 0) (rgb 0 0 0) [] (mkWatchers false false false false false) false.

(** Both indices of an edge address one of [n] slots. *)
Definition edge_in_range (n : nat) (e : Edge) : Prop :=
  (a e < n)%nat /\ (b e < n)%nat.

(** The contract of the model parser (specification, section 3): every
    edge it returns refers to vertices it returns. *)
Definition parser_valid {co : Collaborators D} : Prop :=
  forall fileName vs es,
    parseObj fileName = Some (vs, es) -> Forall (edge_in_range (List.length vs)) es.

(** The invariant of [Scene] (specification, section 3). *)
Definition scene_consistent (s : Scene D) : Prop :=
  List.length (projectedPoints s) = List.length (vertices s)
  /\ Forall (edge_in_range (List.length (vertices s))) (edges s).

(** The line [draw] is meant to emit for an edge whose two projected
    points are [pa] and [pb]. *)
Definition segment_between (pa pb : Point D) : Segment D :=
  mkSegment (x pa) (y pa) (x pb) (y pb).

(** The lines of all edges, in the order of the edge list; an edge with an
    index out of range contributes none. *)
Definition all_segments (pp : list (Point D)) (es : list Edge) : list (Segment D) :=
  flat_map
    (fun e =>
       match nth_error pp (a e), nth_error pp (b e) with
       | Some pa, Some pb => [segment_between pa pb]
       | _, _ => []
       end) es.

(** Every callback registered, as [init] leaves the canvas. *)
Definition all_watched : Watchers := mkWatchers true true true true true.

(** Whether an event is one of the four input events whose handlers
    record the time. *)
Definition is_input (ev : @Event D) : bool :=
  match ev with
  | EvKeyDown _ | EvKeyUp _ | EvMouseButtonDown _ _ _ | EvMouseMove _ _ => true
  | _ => false
  end.

(** The history of a run as the specification sees it: the tick of the
    latest [update] (at first the tick read by [init]) and the tick that was
    current at the latest input event (at first again that of [init]). *)
Fixpoint history (evs : list (@Event D)) (now last : Z) : Z * Z :=
  match evs with
  | [] => (now, last)
  | EvUpdate _ ticks _ :: rest => history rest (u32 ticks) last
  | ev :: rest => history rest now (if is_input ev then now else last)
  end.

(** The tick that was current at the most recent input event of a run that
    [init] started at tick [t0]. *)
Definition last_input_tick (evs : list (@Event D)) (t0 : Z) : Z :=
  snd (history evs (u32 t0) (u32 t0)).

End Notions.

(** A vector of exact arithmetic whose three components are numbers. *)
Definition finite (a b c : R) : Vec3 Exact.double :=
  mkVec3 (Some a) (Some b) (Some c).

(** The square of the length of [(a, b, c)]. *)
Definition sq (a b c : R) : R := (a * a + b * b + c * c)%R.

(** The invalid-projection marker: a point with a NaN coordinate. *)
Definition invalid (p : Point B64.double) : bool :=
  B64.is_nan (x p) || B64.is_nan (y p).

(** ** A small world to run the program in *)

(** One implementation of the collaborators over exact arithmetic, along the
    lines of section 4 of the specification, and a model file of three
    vertices. *)
Module Sample.

Import Exact.
Local Open Scope double_scope.

Definition dot (v w : Vec3 double) : double :=
  vx v * vx w + vy v * vy w + vz v * vz w.

Definition cross (v w : Vec3 double) : Vec3 double :=
  mkVec3 (vy v * vz w - vz v * vy w)
         (vz v * vx w - vx v * vz w)
         (vx v * vy w - vy v * vx w).

(** [v] turned by [angle] about an axis perpendicular to it. *)
Definition rotate (axis v : Vec3 double) (angle : double) : Vec3 double :=
  Vec3_add (Vec3_mult v (dcos angle)) (Vec3_mult (cross axis v) (dsin angle)).

Definition directionForwardHorizontal (c : Camera double) : Vec3 double :=
  let f := lookDirection c in
  Vec3_setLength (Vec3_sub f (Vec3_mult (up c) (dot f (up c)))) (of_int 1).

Definition directionRight (c : Camera double) : Vec3 double :=
  Vec3_setLength (cross (lookDirection c) (up c)) (of_int 1).

Definition turnRight (c : Camera double) (angle : double) : Camera double :=
  set_lookDirection c (rotate (up c) (lookDirection c) angle).

Definition tiltDown (c : Camera double) (angle : double) : Camera double :=
  set_lookDirection c (rotate (directionRight c) (lookDirection c) angle).

Definition focal (extent : Z) (fov : double) : double :=
  let half := fov / of_int 2 in
  of_int extent / (of_int 2 * (dsin half / dcos half)).

Definition project (c : Camera double) (p : Vec3 double) : Point double :=
  let d := Vec3_sub p (pos c) in
  let depth := dot d (lookDirection c) in
  match depth with
  | Some z =>
      if Rle_dec z 0 then mkPoint NAN NAN
      else mkPoint
             (of_int (viewportWidth c) / of_int 2
              + dot d (directionRight c) / depth * focal (viewportWidth c) (fovHorizontal c))
             (of_int (viewportHeight c) / of_int 2
              - dot d (up c) / depth * focal (viewportHeight c) (fovVertical c))
  | None => mkPoint NAN NAN
  end.

(** The largest distance of a vertex from the origin. *)
Definition radius (s : Scene double) : double :=
  fold_right (fun v r => lift2 Rmax (Vec3_length v) r) (of_int 0) (vertices s).

Definition triangle : list (Vec3 double) * list Edge :=
  ([Vec3_new (of_int 1) (of_int 0) (of_int 0);
    Vec3_new (of_int (-1)) (of_int 0) (of_int 0);
    Vec3_new (of_int 0) (of_int 2) (of_int 0)],
   [mkEdge 0 1; mkEdge 1 2; mkEdge 2 0]).

Definition parse (fileName : string) : option (list (Vec3 double) * list Edge) :=
  if String.eqb fileName "base_scene.obj" then Some triangle else None.

Definition forward : Vec3 double := Vec3_new (of_int 0) (of_int 0) (of_int 1).

#[global] Instance collaborators : Collaborators double := {|
  Camera_directionForwardHorizontal := directionForwardHorizontal;
  Camera_directionRight := directionRight;
  Camera_turnRight := turnRight;
  Camera_tiltDown := tiltDown;
  Camera_project := project;
  Scene_radius := radius;
  parseObj := parse;
  defaultLookDirection := forward;
  eraseCamera :=
    mkCamera (Vec3_new (of_int 0) (of_int 0) (of_int 0))
             (Vec3_new (of_int 0) (of_int 1) (of_int 0))
             forward 512 512 (of_int 1) (of_int 1);
  freshPoint := mkPoint (of_int 0) (of_int 0)
|}.

(** The program after [init], both tick readings being 0. *)
Definition started : CCanvas double := init 0 0 zeroed.

(** An application whose camera sits at the origin and looks down the z
    axis, with the key for moving forward held. *)
Definition walking : SoftwareRenderer double :=
  set_moving
    (set_scene (data zeroed)
       (Scene_setCamera (scene (data zeroed))
          (Camera_new (Vec3_new (of_int 0) (of_int 0) (of_int 0))
                      (Vec3_new (of_int 0) (of_int 1) (of_int 0))
                      512 512 (of_int 1) (of_int 1))))
    true false false false false false.

End Sample.

(** A canvas over binary64 whose scene has two vertices joined by one edge,
    the first of them projected to the invalid marker. *)
Module Marked.

Import B64.

Definition one : double := of_int 1.

Definition marked_scene : Scene double :=
  mkScene [mkVec3 (of_int 0) (of_int 0) (of_int (-1)); mkVec3 (of_int 0) (of_int 0) one]
          [mkEdge 0 1]
          [mkPoint NAN NAN; mkPoint one one]
          (cam (scene (data zeroed))).

Definition canvas : CCanvas double :=
  set_data zeroed (set_scene (data zeroed) marked_scene).

End Marked.

(** ** Notions for the further properties *)

Section RunNotions.
Context {D : Type}.

(** Whether the key [code] is held after the key events of a run, [held]
    telling whether it was before. *)
Fixpoint key_held (code : Z) (evs : list (@Event D)) (held : bool) : bool :=
  match evs with
  | [] => held
  | EvKeyDown c :: rest => key_held code rest (if c =? code then true else held)
  | EvKeyUp c :: rest => key_held code rest (if c =? code then false else held)
  | _ :: rest => key_held code rest held
  end.

(** The relative mouse mode a run asks for: the left button turns it on,
    Escape, pressed or released, turns it off. *)
Fixpoint mouse_mode (evs : list (@Event D)) (mode : bool) : bool :=
  match evs with
  | [] => mode
  | EvMouseButtonDown button _ _ :: rest =>
      mouse_mode rest (if button =? SDL_BUTTON_LEFT then true else mode)
  | EvKeyDown c :: rest => mouse_mode rest (if c =? SDLK_ESCAPE then false else mode)
  | EvKeyUp c :: rest => mouse_mode rest (if c =? SDLK_ESCAPE then false else mode)
  | _ :: rest => mouse_mode rest mode
  end.

Definition is_file_drop (ev : @Event D) : bool :=
  match ev with EvFileDrop _ _ => true | _ => false end.

Definition is_update (ev : @Event D) : bool :=
  match ev with EvUpdate _ _ _ => true | _ => false end.

(** The ticks read by the updates of a run never decrease and stay below
    [2^32], starting from the tick [now]: the counter has not wrapped. *)
Fixpoint ticks_ordered (evs : list (@Event D)) (now : Z) : bool :=
  match evs with
  | [] => true
  | EvUpdate _ ticks _ :: rest =>
      (now <=? ticks) && (ticks <? Uint32_modulus) && ticks_ordered rest ticks
  | _ :: rest => ticks_ordered rest now
  end.

(** What [init] sets once and for all, and the range of the two ticks. *)
Definition configured {ar : Arith D} (cnv : CCanvas D) : Prop :=
  watchers cnv = all_watched
  /\ bgColor cnv = rgb 0 0 0
  /\ brushColor cnv = rgb 255 255 255
  /\ moveForce (data cnv) = of_int 1
  /\ 0 <= currentTick (data cnv) < Uint32_modulus
  /\ 0 <= lastInput (data cnv) < Uint32_modulus.

End RunNotions.

(** A binary64 value that is a number: neither a NaN nor an infinity. *)
Definition B64_is_number (u : B64.double) : bool :=
  match u with
  | S754_zero _ | S754_finite _ _ _ => true
  | _ => false
  end.

(** A binary64 zero, of either sign. *)
Definition B64_is_zero (u : B64.double) : bool :=
  match u with S754_zero _ => true | _ => false end.

Definition B64_numbers (v : Vec3 B64.double) : bool :=
  B64_is_number (vx v) && B64_is_number (vy v) && B64_is_number (vz v).

Definition B64_zeros (v : Vec3 B64.double) : bool :=
  B64_is_zero (vx v) && B64_is_zero (vy v) && B64_is_zero (vz v).

(** A world over binary64 for running [update]'s force computation: the
    camera's own look direction serves as the forward direction and the
    x axis as the right direction; no model file exists. *)
Module Axes.

Import B64.

Definition unit_x : Vec3 double := mkVec3 (of_int 1) (of_int 0) (of_int 0).
Definition unit_z : Vec3 double := mkVec3 (of_int 0) (of_int 0) (of_int 1).

#[global] Instance collaborators : Collaborators double := {|
  Camera_directionForwardHorizontal := fun c => lookDirection c;
  Camera_directionRight := fun _ => unit_x;
  Camera_turnRight := fun c _ => c;
  Camera_tiltDown := fun c _ => c;
  Camera_project := fun c p => mkPoint (vx p) (vy p);
  Scene_radius := fun _ => of_int 1;
  parseObj := fun _ => None;
  defaultLookDirection := unit_z;
  eraseCamera := mkCamera unit_z unit_z unit_z 0 0 (of_int 1) (of_int 1);
  freshPoint := mkPoint (of_int 0) (of_int 0)
|}.

(** An application looking down the z axis with the four horizontal keys
    held at once. *)
Definition all_keys : SoftwareRenderer double :=
  set_moving
    (set_scene (data zeroed)
       (set_cam (scene (data zeroed))
          (mkCamera unit_z (mkVec3 (of_int 0) (of_int 1) (of_int 0)) unit_z
                    512 512 (of_int 1) (of_int 1))))
    true true true true false false.




(** An application with no key held that moves with velocity (1, 0, -2);
    [moveForce] is 1 and the stored scene radius [r]. *)
Definition coasting (r : double) : SoftwareRenderer double :=
  set_sceneRadius
    (set_moveForce
       (set_vel (set_moving all_keys false false false false false false)
                (mkVec3 (of_int 1) (of_int 0) (of_int (-2))))
       (of_int 1))
    r.

End Axes.

(** ** Notions for binary64 results *)







(** A vector of three NaNs. *)
Definition B64_nans (v : Vec3 B64.double) : bool :=
  B64.is_nan (vx v) && B64.is_nan (vy v) && B64.is_nan (vz v).

(** [v] is [u], but for the sign of a zero. *)
Definition B64_unchanged (u v : B64.double) : Prop :=
  v = u \/ (B64_is_zero u = true /\ B64_is_zero v = true).













(** * Properties *)

(** ** Small runs in binary64 *)

(** The vector (3, 0, 4) has length 5: setting its length to 5 changes
    nothing, bit for bit. *)
Example setLength_3_0_4 :
  Vec3_setLength (D := B64.double) (mkVec3 (of_int 3) (of_int 0) (of_int 4)) (of_int 5)
  = mkVec3 (of_int 3) (of_int 0) (of_int 4).
Proof. vm_compute. reflexivity. Qed.

(** The zero vector is left alone. *)
Example setLength_zero :
  Vec3_setLength (D := B64.double) (mkVec3 (of_int 0) (of_int 0) (of_int 0)) (of_int 1)
  = mkVec3 (of_int 0) (of_int 0) (of_int 0).
Proof. vm_compute. reflexivity. Qed.

(** The tick test is taken on [Uint32]: 10005 ticks lie between an input at
    [2^32 - 10000] and a tick counter that has wrapped around to 5. *)
Example idle_across_wrap_around :
  idle (set_currentTick (set_lastInput (data (zeroed (D := B64.double)))
                                       (2 ^ 32 - 10000)) 5) = true
  /\ idle (set_currentTick (set_lastInput (data (zeroed (D := B64.double)))
                                          (2 ^ 32 - 10000)) 0) = false.
Proof. split; vm_compute; reflexivity. Qed.

(** Pressing and releasing the key W sets and clears the flag. *)
Example key_w_down_up :
  movingForward (data (onKeyDown (zeroed (D := B64.double)) SDLK_w)) = true
  /\ movingForward
       (data (onKeyUp (onKeyDown (zeroed (D := B64.double)) SDLK_w) SDLK_w)) = false.
Proof. split; reflexivity. Qed.

(** A left click turns SDL's relative mouse mode on, Escape turns it off. *)
Example click_then_escape :
  relativeMouseMode
    (onMouseButtonDown (zeroed (D := B64.double)) SDL_BUTTON_LEFT 10 10) = true
  /\ relativeMouseMode
       (onKeyDown (onMouseButtonDown (zeroed (D := B64.double)) SDL_BUTTON_LEFT 10 10)
                  SDLK_ESCAPE) = false.
Proof. split; reflexivity. Qed.

(** ** What each function leaves alone *)

Section Frames.
Context {D : Type} {ar : Arith D} {lm : Libm D} {co : Collaborators D}.

(** [calculateCameraPosAndSpeed] touches the camera only, and of the camera
    only the position and the look direction. *)
Lemma calculateCameraPosAndSpeed_frame (ticks : Z) (app : SoftwareRenderer D) :
  let app' := calculateCameraPosAndSpeed ticks app in
  set_scene app' (scene app) = app
  /\ set_cam (scene app') (cam (scene app)) = scene app
  /\ set_lookDirection (set_pos (cam (scene app')) (pos (cam (scene app))))
                       (lookDirection (cam (scene app)))
     = cam (scene app).
Proof.
  destruct app as [[vs es pp [p u l w h fh fv]] v mf f1 f2 f3 f4 f5 f6 r li ct].
  repeat split.
Qed.

(** [calculateSceneRadius] assigns [sceneRadius] and nothing else. *)
Lemma calculateSceneRadius_frame (app : SoftwareRenderer D) :
  set_sceneRadius (calculateSceneRadius app) (sceneRadius app) = app.
Proof. destruct app; reflexivity. Qed.

(** The movement part of [update] changes the tick, the velocity and the
    camera position. *)
Lemma update_move_frame (dt : D) (ticks : Z) (app : SoftwareRenderer D) :
  let app' := update_move dt ticks app in
  set_currentTick (set_vel (set_scene app' (scene app)) (vel app)) (currentTick app) = app
  /\ set_cam (scene app') (cam (scene app)) = scene app
  /\ set_pos (cam (scene app')) (pos (cam (scene app))) = cam (scene app).
Proof.
  destruct app as [[vs es pp [p u l w h fh fv]] v mf f1 f2 f3 f4 f5 f6 r li ct].
  repeat split.
Qed.

(** The tick test of [update] reads the new tick and the recorded input
    time. *)
Lemma idle_update_move (dt : D) (ticks : Z) (app : SoftwareRenderer D) :
  idle (update_move dt ticks app) = (idleThreshold <? u32 (u32 ticks - lastInput app)).
Proof. reflexivity. Qed.

(** After [init] every member has a value that does not depend on the
    memory [init] found. *)
Lemma init_overwrites (ticks ticks' : Z) (cnv cnv' : CCanvas D) :
  relativeMouseMode cnv = relativeMouseMode cnv' ->
  drawn cnv = drawn cnv' ->
  init ticks ticks' cnv = init ticks ticks' cnv'.
Proof.
  destruct cnv as [app bg br dr wt rm], cnv' as [app' bg' br' dr' wt' rm'].
  simpl. intros -> ->. reflexivity.
Qed.

End Frames.

(** ** [draw] *)

Section Drawing.
Context {D : Type} {ar : Arith D} {nn : HasNaN D}.

(** One iteration of the loop changes at most what is drawn. *)
Lemma draw_edge_frame (pp : list (Point D)) (e : Edge) (cnv cnv' : CCanvas D) :
  draw_edge pp e cnv = Some cnv' -> set_drawn cnv' (drawn cnv) = cnv.
Proof.
  unfold draw_edge. destruct cnv as [app bg br dr wt rm].
  destruct (nth_error pp (a e)) as [pa|]; [|discriminate].
  destruct (dneq (x pa) NAN).
  - destruct (nth_error pp (b e)) as [pb|]; [|discriminate].
    destruct (dneq (x pb) NAN && dneq (y pa) NAN && dneq (y pb) NAN);
      intros [= <-]; reflexivity.
  - intros [= <-]; reflexivity.
Qed.

(** So does the whole loop. *)
Lemma draw_edges_frame (pp : list (Point D)) (es : list Edge) :
  forall cnv cnv' : CCanvas D,
    draw_edges pp es cnv = Some cnv' -> set_drawn cnv' (drawn cnv) = cnv.
Proof.
  induction es as [|e es IH]; simpl; intros cnv cnv' H.
  - injection H as <-. destruct cnv; reflexivity.
  - destruct (draw_edge pp e cnv) as [cnv1|] eqn:E1; [|discriminate].
    apply draw_edge_frame in E1. apply IH in H.
    rewrite <- E1. rewrite <- H. destruct cnv'; reflexivity.
Qed.

(** [draw] changes what is drawn and nothing else: not the application
    data, hence neither the scene nor the camera. *)
Lemma draw_frame (cnv cnv' : CCanvas D) :
  draw cnv = Some cnv' -> set_drawn cnv' (drawn cnv) = cnv.
Proof.
  unfold draw. intros H. apply draw_edges_frame in H.
  destruct cnv, cnv'. unfold CCanvas_clear, set_drawn in *. simpl in *.
  injection H as -> -> -> -> ->. reflexivity.
Qed.

(** In particular it leaves the application data. *)
Lemma draw_data (cnv cnv' : CCanvas D) :
  draw cnv = Some cnv' -> data cnv' = data cnv.
Proof.
  intros H. apply draw_frame in H. rewrite <- H. reflexivity.
Qed.

(** An edge in range is read without fault. *)
Lemma draw_edge_in_range (pp : list (Point D)) (e : Edge) (cnv : CCanvas D) :
  edge_in_range (List.length pp) e -> exists cnv', draw_edge pp e cnv = Some cnv'.
Proof.
  intros [Ha Hb]. unfold draw_edge.
  destruct (nth_error pp (a e)) as [pa|] eqn:Ea.
  2:{ apply nth_error_None in Ea. lia. }
  destruct (nth_error pp (b e)) as [pb|] eqn:Eb.
  2:{ apply nth_error_None in Eb. lia. }
  destruct (dneq (x pa) NAN); [|eauto].
  destruct (dneq (x pb) NAN && dneq (y pa) NAN && dneq (y pb) NAN); eauto.
Qed.

(** So are all edges in range. *)
Lemma draw_edges_in_range (pp : list (Point D)) (es : list Edge) :
  Forall (edge_in_range (List.length pp)) es ->
  forall cnv, exists cnv', draw_edges pp es cnv = Some cnv'.
Proof.
  induction 1 as [|e es He _ IH]; simpl; intros cnv.
  - eauto.
  - destruct (draw_edge_in_range pp e cnv He) as [cnv1 ->]. apply IH.
Qed.

(** On a consistent scene [draw] never reads out of bounds. *)
Lemma draw_defined (cnv : CCanvas D) :
  scene_consistent (scene (data cnv)) -> exists cnv', draw cnv = Some cnv'.
Proof.
  intros [Hlen Hes]. unfold draw. apply draw_edges_in_range.
  rewrite Hlen. exact Hes.
Qed.

End Drawing.

(** In binary64 nothing compares equal to [NAN], so every operand of the
    condition in [draw] is true. *)
Lemma B64_neq_NAN (u : B64.double) : dneq u NAN = true.
Proof. destruct u; reflexivity. Qed.

(** Hence one iteration of the loop of [draw] emits the line of its edge
    whenever it reads within bounds, and so does the whole loop. *)
Lemma B64_draw_edge (pp : list (Point B64.double)) (e : Edge) (cnv cnv' : CCanvas B64.double) :
  draw_edge pp e cnv = Some cnv' ->
  drawn cnv' = drawn cnv ++ all_segments pp [e].
Proof.
  unfold draw_edge, all_segments. cbn [flat_map].
  destruct (nth_error pp (a e)) as [pa|]; [|discriminate].
  rewrite B64_neq_NAN.
  destruct (nth_error pp (b e)) as [pb|]; [|discriminate].
  rewrite !B64_neq_NAN. cbn [andb]. intros [= <-]. now rewrite app_nil_r.
Qed.

Lemma B64_draw_edges (pp : list (Point B64.double)) (es : list Edge) :
  forall cnv cnv' : CCanvas B64.double,
    draw_edges pp es cnv = Some cnv' ->
    drawn cnv' = drawn cnv ++ all_segments pp es.
Proof.
  induction es as [|e es IH]; simpl; intros cnv cnv' H.
  - injection H as <-. now rewrite app_nil_r.
  - destruct (draw_edge pp e cnv) as [cnv1|] eqn:E1; [|discriminate].
    apply B64_draw_edge in E1. apply IH in H.
    rewrite H, E1, <- app_assoc. f_equal.
    unfold all_segments. simpl. now rewrite app_nil_r.
Qed.

(** In binary64 [draw] emits the line of every edge, whatever its endpoints'
    coordinates are: it never skips one. *)
Lemma B64_draw_never_skips (cnv cnv' : CCanvas B64.double) :
  draw cnv = Some cnv' ->
  drawn cnv' = all_segments (projectedPoints (scene (data cnv))) (edges (scene (data cnv))).
Proof.
  unfold draw. intros H. apply B64_draw_edges in H. exact H.
Qed.

(** C2, at the canvas [Marked.canvas]: the first endpoint of the only edge
    carries the invalid marker (both coordinates are NaN), and [draw] still
    emits the line between the two projected points, whereas the claim has
    the edge skipped. *)
Theorem draw_emits_edge_with_invalid_endpoint :
  let pp := projectedPoints (scene (data Marked.canvas)) in
  edges (scene (data Marked.canvas)) = [mkEdge 0 1]
  /\ option_map invalid (nth_error pp 0) = Some true
  /\ option_map drawn (draw Marked.canvas)
     = Some [segment_between (mkPoint NAN NAN) (mkPoint Marked.one Marked.one)].
Proof. repeat split. Qed.

(** ** Loading a model *)

Section Loading.
Context {D : Type} {ar : Arith D} {lm : Libm D} {co : Collaborators D}.

(** The buffers [onFileDrop] leaves are those of [Scene_loadObj] run on the
    scene that [Scene_free] has emptied. *)
Lemma onFileDrop_buffers (ticks : Z) (cnv : CCanvas D) (fileName : string) :
  let loaded := Scene_loadObj (Scene_free (scene (data cnv))) fileName in
  let after := scene (data (onFileDrop ticks cnv fileName)) in
  vertices after = vertices loaded
  /\ edges after = edges loaded
  /\ projectedPoints after = projectedPoints loaded.
Proof. repeat split. Qed.

(** When the parser fails, [onFileDrop] leaves the emptied scene. *)
Lemma onFileDrop_failed_load (ticks : Z) (cnv : CCanvas D) (fileName : string) :
  parseObj fileName = None ->
  Scene_loadObj (Scene_free (scene (data cnv))) fileName = Scene_free (scene (data cnv))
  /\ vertices (scene (data (onFileDrop ticks cnv fileName))) = []
  /\ edges (scene (data (onFileDrop ticks cnv fileName))) = [].
Proof.
  intros Hfail.
  assert (Hload : Scene_loadObj (Scene_free (scene (data cnv))) fileName
                  = Scene_free (scene (data cnv))).
  { unfold Scene_loadObj. now rewrite Hfail. }
  destruct (onFileDrop_buffers ticks cnv fileName) as (Hv & He & _).
  cbv zeta in Hv, He. rewrite Hv, He, Hload. repeat split.
Qed.

(** C1, as amended: when the load fails, the failed [Scene_loadObj] itself
    changes nothing, but [onFileDrop] has released the buffers before it
    attempts the load; after the handler the vertex and edge buffers are the
    released, empty ones, not those the scene held before the drop. *)
Theorem onFileDrop_failed_load_leaves_released_buffers
    (ticks : Z) (cnv : CCanvas D) (fileName : string) :
  parseObj fileName = None ->
  let released := Scene_free (scene (data cnv)) in
  let after := scene (data (onFileDrop ticks cnv fileName)) in
  Scene_loadObj released fileName = released
  /\ vertices after = vertices released
  /\ edges after = edges released
  /\ vertices after = []
  /\ edges after = [].
Proof.
  intros Hfail. cbv zeta.
  destruct (onFileDrop_failed_load ticks cnv fileName Hfail) as (Hload & Hv & He).
  rewrite Hv, He. repeat split. exact Hload.
Qed.

End Loading.

(** The model file of the sample world is found under one name only. *)
Lemma Sample_missing : Sample.parse "missing.obj" = None.
Proof. reflexivity. Qed.

(** After [init] the sample world holds the triangle. *)
Lemma Sample_started_vertices :
  vertices (scene (data Sample.started)) = fst Sample.triangle
  /\ edges (scene (data Sample.started)) = snd Sample.triangle.
Proof. split; reflexivity. Qed.

Lemma onFileDrop_failed_load_leaves_released_buffers_witness :
  Sample.parse "missing.obj" = None
  /\ vertices (scene (data (onFileDrop 7 Sample.started "missing.obj"))) = []
  /\ edges (scene (data (onFileDrop 7 Sample.started "missing.obj"))) = [].
Proof.
  split; [reflexivity|].
  apply (onFileDrop_failed_load_leaves_released_buffers 7 Sample.started "missing.obj").
  reflexivity.
Defined.

(** C1 fails as stated: in the sample world the scene holds three vertices
    and three edges; a file that cannot be loaded is dropped; afterwards the
    vertex and edge buffers differ from what they were before the call. *)
Lemma onFileDrop_failed_load_loses_geometry :
  let before := scene (data Sample.started) in
  let after := scene (data (onFileDrop 7 Sample.started "missing.obj")) in
  Sample.parse "missing.obj" = None
  /\ List.length (vertices before) = 3%nat
  /\ List.length (edges before) = 3%nat
  /\ vertices after <> vertices before
  /\ edges after <> edges before.
Proof.
  cbv zeta.
  destruct Sample_started_vertices as [-> ->].
  destruct (onFileDrop_failed_load (co := Sample.collaborators)
              7 Sample.started "missing.obj" Sample_missing)
    as (_ & -> & ->).
  repeat split; discriminate.
Qed.

(** ** The states the program reaches *)

Section Reachability.
Context {D : Type} {ar : Arith D} {lm : Libm D} {co : Collaborators D} {nn : HasNaN D}.

(** The invariant depends on the three buffers only. *)
Lemma scene_consistent_buffers (s s' : Scene D) :
  vertices s' = vertices s ->
  edges s' = edges s ->
  projectedPoints s' = projectedPoints s ->
  scene_consistent s -> scene_consistent s'.
Proof. unfold scene_consistent. intros -> -> ->. tauto. Qed.

(** Each function of the scene that [main.c] calls keeps the invariant. *)
Lemma Scene_free_consistent (s : Scene D) : scene_consistent (Scene_free s).
Proof. split; [reflexivity | constructor]. Qed.

Lemma Scene_erase_consistent (s : Scene D) : scene_consistent (Scene_erase s).
Proof. split; [reflexivity | constructor]. Qed.

Lemma Scene_loadObj_consistent (s : Scene D) (fileName : string) :
  parser_valid -> scene_consistent s -> scene_consistent (Scene_loadObj s fileName).
Proof.
  intros Hp Hs. unfold Scene_loadObj.
  destruct (parseObj fileName) as [[vs es]|] eqn:E; [|exact Hs].
  split; simpl.
  - apply length_map.
  - exact (Hp _ _ _ E).
Qed.

Lemma Scene_projectPoints_consistent (s : Scene D) :
  scene_consistent s -> scene_consistent (Scene_projectPoints s).
Proof.
  intros [_ He]. split; simpl; [apply length_map | exact He].
Qed.

(** [update] keeps the vertices and the edges, and writes every projected
    point anew from the camera it leaves. *)
Lemma update_buffers (dt : D) (ticks ticks' : Z) (cnv : CCanvas D) :
  let s' := scene (data (update dt ticks ticks' cnv)) in
  vertices s' = vertices (scene (data cnv))
  /\ edges s' = edges (scene (data cnv))
  /\ projectedPoints s' = map (Camera_project (cam s')) (vertices (scene (data cnv))).
Proof.
  unfold update. destruct (idle (update_move dt ticks (data cnv))); repeat split.
Qed.

Lemma update_consistent (dt : D) (ticks ticks' : Z) (cnv : CCanvas D) :
  scene_consistent (scene (data cnv)) ->
  scene_consistent (scene (data (update dt ticks ticks' cnv))).
Proof.
  intros [_ He]. destruct (update_buffers dt ticks ticks' cnv) as (Hv & Hes & Hpp).
  cbv zeta in *. split.
  - rewrite Hpp, Hv. apply length_map.
  - rewrite Hv, Hes. exact He.
Qed.

Lemma init_consistent (ticks ticks' : Z) (cnv : CCanvas D) :
  parser_valid -> scene_consistent (scene (data (init ticks ticks' cnv))).
Proof.
  intros Hp.
  apply scene_consistent_buffers
    with (s := Scene_loadObj
                 (Scene_setCamera (Scene_erase (scene (data cnv)))
                    (cam (scene (data (init_defaults ticks cnv)))))
                 "base_scene.obj");
    try reflexivity.
  apply Scene_loadObj_consistent; [exact Hp|].
  split; [reflexivity | constructor].
Qed.

Lemma onFileDrop_consistent (ticks : Z) (cnv : CCanvas D) (fileName : string) :
  parser_valid -> scene_consistent (scene (data (onFileDrop ticks cnv fileName))).
Proof.
  intros Hp.
  destruct (onFileDrop_buffers ticks cnv fileName) as (Hv & He & Hpp).
  eapply scene_consistent_buffers; [exact Hv | exact He | exact Hpp |].
  apply Scene_loadObj_consistent; [exact Hp | apply Scene_free_consistent].
Qed.

(** The key and mouse-button handlers leave the scene as it is. *)
Lemma onKeyDown_scene (cnv : CCanvas D) (code : Z) :
  scene (data (onKeyDown cnv code)) = scene (data cnv).
Proof. unfold onKeyDown. repeat destruct (code =? _); reflexivity. Qed.

Lemma onKeyUp_scene (cnv : CCanvas D) (code : Z) :
  scene (data (onKeyUp cnv code)) = scene (data cnv).
Proof. unfold onKeyUp. repeat destruct (code =? _); reflexivity. Qed.

Lemma onMouseButtonDown_scene (cnv : CCanvas D) (button mx my : Z) :
  scene (data (onMouseButtonDown cnv button mx my)) = scene (data cnv).
Proof.
  unfold onMouseButtonDown.
  destruct (button =? SDL_BUTTON_LEFT); [destruct (negb _)|]; reflexivity.
Qed.

Lemma dispatch_consistent (ev : Event) (cnv cnv' : CCanvas D) :
  parser_valid ->
  dispatch ev cnv = Some cnv' ->
  scene_consistent (scene (data cnv)) -> scene_consistent (scene (data cnv')).
Proof.
  intros Hp Hd Hs.
  destruct ev as [code|code|button mx my|dx dy|fileName ticks|dt ticks ticks'|]; simpl in Hd.
  - injection Hd as <-. destruct (watchKeyDown _); [rewrite onKeyDown_scene|]; exact Hs.
  - injection Hd as <-. destruct (watchKeyUp _); [rewrite onKeyUp_scene|]; exact Hs.
  - injection Hd as <-.
    destruct (watchMouseButtonDown _); [rewrite onMouseButtonDown_scene|]; exact Hs.
  - injection Hd as <-. destruct (watchMouseMove _); [|exact Hs].
    revert Hs. apply scene_consistent_buffers; reflexivity.
  - injection Hd as <-. destruct (watchFileDrop _); [|exact Hs].
    apply onFileDrop_consistent, Hp.
  - injection Hd as <-. apply update_consistent, Hs.
  - apply draw_data in Hd. rewrite Hd. exact Hs.
Qed.

(** The invariant of section 3 holds in every reachable state. *)
Lemma reachable_consistent (cnv : CCanvas D) :
  parser_valid -> reachable cnv -> scene_consistent (scene (data cnv)).
Proof.
  intros Hp. induction 1 as [ticks ticks' cnv0 | ev cnv cnv' _ IH Hd].
  - apply init_consistent, Hp.
  - exact (dispatch_consistent ev cnv cnv' Hp Hd IH).
Qed.

(** Whatever the projected points were, [Scene_projectPoints] computes all
    of them from the vertices and the camera. *)
Lemma Scene_projectPoints_recomputes (s : Scene D) (pp : list (Point D)) :
  Scene_projectPoints (set_projectedPoints s pp) = Scene_projectPoints s.
Proof. reflexivity. Qed.

(** What [run] reaches from a reachable state is reachable. *)
Lemma run_reachable (evs : list Event) :
  forall cnv cnv' : CCanvas D,
    reachable cnv -> run evs cnv = Some cnv' -> reachable cnv'.
Proof.
  induction evs as [|ev evs IH]; simpl; intros cnv cnv' Hr H.
  - injection H as <-. exact Hr.
  - destruct (dispatch ev cnv) as [cnv1|] eqn:E; [|discriminate].
    exact (IH cnv1 cnv' (reachable_step ev cnv cnv1 Hr E) H).
Qed.

(** C5: in every reachable state (the parser keeping its contract) the
    projected points are as many as the vertices; a projection, as [update]
    runs it, writes the whole sequence from the vertices and the camera and
    does not depend on what the sequence held; every index of every edge
    addresses a projected point, so that [draw] reads within bounds. *)
Theorem projectedPoints_parallel_to_vertices (cnv : CCanvas D) :
  parser_valid ->
  reachable cnv ->
  let s := scene (data cnv) in
  List.length (projectedPoints s) = List.length (vertices s)
  /\ (forall pp, Scene_projectPoints (set_projectedPoints s pp) = Scene_projectPoints s)
  /\ (forall dt ticks ticks',
        let s' := scene (data (update dt ticks ticks' cnv)) in
        projectedPoints s' = map (Camera_project (cam s')) (vertices s'))
  /\ (forall e, In e (edges s) ->
        exists pa pb, nth_error (projectedPoints s) (a e) = Some pa
                      /\ nth_error (projectedPoints s) (b e) = Some pb)
  /\ (exists cnv', draw cnv = Some cnv').
Proof.
  intros Hp Hr. cbv zeta.
  pose proof (reachable_consistent cnv Hp Hr) as Hs.
  destruct Hs as [Hlen Hes]. split; [|split; [|split; [|split]]].
  - exact Hlen.
  - reflexivity.
  - intros dt ticks ticks'.
    destruct (update_buffers dt ticks ticks' cnv) as (Hv & _ & Hpp).
    cbv zeta in Hv, Hpp. rewrite Hpp, Hv. reflexivity.
  - intros e He. rewrite Forall_forall in Hes. destruct (Hes e He) as [Ha Hb].
    rewrite <- Hlen in Ha, Hb.
    destruct (nth_error (projectedPoints (scene (data cnv))) (a e)) as [pa|] eqn:Ea.
    2:{ apply nth_error_None in Ea. lia. }
    destruct (nth_error (projectedPoints (scene (data cnv))) (b e)) as [pb|] eqn:Eb.
    2:{ apply nth_error_None in Eb. lia. }
    eauto.
  - apply draw_defined. split; assumption.
Qed.

End Reachability.

(** The parser of the sample world keeps its contract. *)
Lemma Sample_parser_valid : parser_valid (co := Sample.collaborators).
Proof.
  intros fileName vs es. simpl. unfold Sample.parse.
  destruct (String.eqb fileName "base_scene.obj"); [|discriminate].
  intros [= <- <-]. repeat constructor.
Qed.

Lemma projectedPoints_parallel_to_vertices_witness :
  let s := scene (data Sample.started) in
  List.length (projectedPoints s) = List.length (vertices s)
  /\ (forall pp, Scene_projectPoints (set_projectedPoints s pp) = Scene_projectPoints s)
  /\ (forall dt ticks ticks',
        let s' := scene (data (update dt ticks ticks' Sample.started)) in
        projectedPoints s' = map (Camera_project (cam s')) (vertices s'))
  /\ (forall e, In e (edges s) ->
        exists pa pb, nth_error (projectedPoints s) (a e) = Some pa
                      /\ nth_error (projectedPoints s) (b e) = Some pb)
  /\ (exists cnv', draw Sample.started = Some cnv').
Proof.
  apply (projectedPoints_parallel_to_vertices Sample.started).
  - exact Sample_parser_valid.
  - apply reachable_init.
Defined.

(** ** The idle time *)

Section Idle.
Context {D : Type} {ar : Arith D} {lm : Libm D} {co : Collaborators D} {nn : HasNaN D}.

(** Each of the four input handlers records the current tick as the time of
    the last input, and leaves the current tick. *)
Lemma onKeyDown_ticks (cnv : CCanvas D) (code : Z) :
  lastInput (data (onKeyDown cnv code)) = currentTick (data cnv)
  /\ currentTick (data (onKeyDown cnv code)) = currentTick (data cnv)
  /\ watchers (onKeyDown cnv code) = watchers cnv.
Proof. unfold onKeyDown. repeat destruct (code =? _); repeat split. Qed.

Lemma onKeyUp_ticks (cnv : CCanvas D) (code : Z) :
  lastInput (data (onKeyUp cnv code)) = currentTick (data cnv)
  /\ currentTick (data (onKeyUp cnv code)) = currentTick (data cnv)
  /\ watchers (onKeyUp cnv code) = watchers cnv.
Proof. unfold onKeyUp. repeat destruct (code =? _); repeat split. Qed.

Lemma onMouseButtonDown_ticks (cnv : CCanvas D) (button mx my : Z) :
  lastInput (data (onMouseButtonDown cnv button mx my)) = currentTick (data cnv)
  /\ currentTick (data (onMouseButtonDown cnv button mx my)) = currentTick (data cnv)
  /\ watchers (onMouseButtonDown cnv button mx my) = watchers cnv.
Proof.
  unfold onMouseButtonDown.
  destruct (button =? SDL_BUTTON_LEFT); [destruct (negb _)|]; repeat split.
Qed.

Lemma onMouseMove_ticks (cnv : CCanvas D) (dx dy : Z) :
  lastInput (data (onMouseMove cnv dx dy)) = currentTick (data cnv)
  /\ currentTick (data (onMouseMove cnv dx dy)) = currentTick (data cnv)
  /\ watchers (onMouseMove cnv dx dy) = watchers cnv.
Proof. repeat split. Qed.

(** [onFileDrop] does not count as input: it leaves both ticks. *)
Lemma onFileDrop_ticks (ticks : Z) (cnv : CCanvas D) (fileName : string) :
  lastInput (data (onFileDrop ticks cnv fileName)) = lastInput (data cnv)
  /\ currentTick (data (onFileDrop ticks cnv fileName)) = currentTick (data cnv)
  /\ watchers (onFileDrop ticks cnv fileName) = watchers cnv.
Proof. repeat split. Qed.

Lemma update_ticks (dt : D) (ticks ticks' : Z) (cnv : CCanvas D) :
  lastInput (data (update dt ticks ticks' cnv)) = lastInput (data cnv)
  /\ currentTick (data (update dt ticks ticks' cnv)) = u32 ticks
  /\ watchers (update dt ticks ticks' cnv) = watchers cnv.
Proof.
  unfold update. destruct (idle (update_move dt ticks (data cnv))); repeat split.
Qed.

Lemma init_ticks (ticks ticks' : Z) (cnv : CCanvas D) :
  lastInput (data (init ticks ticks' cnv)) = u32 ticks
  /\ currentTick (data (init ticks ticks' cnv)) = u32 ticks
  /\ watchers (init ticks ticks' cnv) = all_watched.
Proof. repeat split. Qed.

(** One event moves the two recorded ticks as [history] says. *)
Lemma dispatch_history (ev : Event) (cnv cnv' : CCanvas D) :
  watchers cnv = all_watched ->
  dispatch ev cnv = Some cnv' ->
  watchers cnv' = all_watched
  /\ forall rest,
       history (ev :: rest) (currentTick (data cnv)) (lastInput (data cnv))
       = history rest (currentTick (data cnv')) (lastInput (data cnv')).
Proof.
  intros Hw Hd.
  destruct ev as [code|code|button mx my|dx dy|fileName ticks|dt ticks ticks'|];
    simpl in Hd; rewrite ?Hw in Hd; simpl in Hd.
  - injection Hd as <-. destruct (onKeyDown_ticks cnv code) as (-> & -> & ->).
    split; [exact Hw | reflexivity].
  - injection Hd as <-. destruct (onKeyUp_ticks cnv code) as (-> & -> & ->).
    split; [exact Hw | reflexivity].
  - injection Hd as <-.
    destruct (onMouseButtonDown_ticks cnv button mx my) as (-> & -> & ->).
    split; [exact Hw | reflexivity].
  - injection Hd as <-. destruct (onMouseMove_ticks cnv dx dy) as (-> & -> & ->).
    split; [exact Hw | reflexivity].
  - injection Hd as <-. destruct (onFileDrop_ticks ticks cnv fileName) as (-> & -> & ->).
    split; [exact Hw | reflexivity].
  - injection Hd as <-. destruct (update_ticks dt ticks ticks' cnv) as (-> & -> & ->).
    split; [exact Hw | reflexivity].
  - pose proof (draw_data _ _ Hd) as Hdata. apply draw_frame in Hd.
    assert (Hw' : watchers cnv' = watchers cnv) by (rewrite <- Hd; reflexivity).
    rewrite Hdata. split; [congruence | reflexivity].
Qed.

(** The two ticks of a history stay within [Uint32]. *)
Lemma history_range (evs : list (@Event D)) :
  forall now last,
    0 <= now < Uint32_modulus -> 0 <= last < Uint32_modulus ->
    0 <= fst (history evs now last) < Uint32_modulus
    /\ 0 <= snd (history evs now last) < Uint32_modulus.
Proof.
  induction evs as [|ev evs IH]; intros now last Hn Hl.
  - simpl. split; assumption.
  - destruct ev; cbn [history is_input]; apply IH; try assumption.
    apply Z.mod_pos_bound. reflexivity.
Qed.

(** So does the tick of the most recent input. *)
Lemma last_input_tick_range (evs : list (@Event D)) (t0 : Z) :
  0 <= last_input_tick evs t0 < Uint32_modulus.
Proof.
  unfold last_input_tick.
  apply history_range; apply Z.mod_pos_bound; reflexivity.
Qed.

(** After a run the program holds the two ticks of the run's history. *)
Lemma run_history (evs : list Event) :
  forall cnv cnv' : CCanvas D,
    watchers cnv = all_watched ->
    run evs cnv = Some cnv' ->
    history evs (currentTick (data cnv)) (lastInput (data cnv))
    = (currentTick (data cnv'), lastInput (data cnv')).
Proof.
  induction evs as [|ev evs IH]; intros cnv cnv' Hw H.
  - injection H as <-. reflexivity.
  - cbn [run] in H. destruct (dispatch ev cnv) as [cnv1|] eqn:E; [|discriminate].
    destruct (dispatch_history ev cnv cnv1 Hw E) as [Hw1 Hh].
    rewrite Hh. exact (IH cnv1 cnv' Hw1 H).
Qed.

(** The tick [update] compares with is the one that was current at the most
    recent input event. *)
Lemma lastInput_after_run (evs : list Event) (t0 t0' : Z) (cnv0 cnv : CCanvas D) :
  run evs (init t0 t0' cnv0) = Some cnv ->
  lastInput (data cnv) = last_input_tick evs t0.
Proof.
  intros H. unfold last_input_tick.
  destruct (init_ticks t0 t0' cnv0) as (Hl & Hc & Hw).
  pose proof (run_history evs _ _ Hw H) as Hh.
  rewrite Hl, Hc in Hh. rewrite Hh. reflexivity.
Qed.

(** What [update] leaves as application data, by the outcome of its tick
    test. *)
Lemma update_cases (dt : D) (ticks ticks' : Z) (cnv : CCanvas D) :
  let moved := update_move dt ticks (data cnv) in
  data (update dt ticks ticks' cnv)
  = if idleThreshold <? u32 (u32 ticks - lastInput (data cnv))
    then let app := calculateCameraPosAndSpeed ticks' moved in
         set_scene app (Scene_projectPoints (scene app))
    else set_scene moved (Scene_projectPoints (scene moved)).
Proof.
  cbv zeta. unfold update. rewrite idle_update_move.
  destruct (idleThreshold <? _); reflexivity.
Qed.

(** C3: the handlers of mouse-button, mouse-move, key-down and key-up events
    record the current tick as the time of the last input; in an [update]
    that reads the tick [ticks], after any run of the program, the camera is
    repositioned by [calculateCameraPosAndSpeed] when more than 10000 ticks
    (counted on [Uint32]) lie between [ticks] and the tick of the most recent
    input event, and is left where the movement put it otherwise. *)
Theorem idle_orbit_iff_idle_over_10000_ticks
    (evs : list Event) (t0 t0' : Z) (cnv0 cnv : CCanvas D)
    (dt : D) (ticks ticks' : Z) :
  run evs (init t0 t0' cnv0) = Some cnv ->
  let elapsed := u32 (u32 ticks - last_input_tick evs t0) in
  let moved := update_move dt ticks (data cnv) in
  let orbit := calculateCameraPosAndSpeed ticks' moved in
  let after := data (update dt ticks ticks' cnv) in
  (forall code, lastInput (data (onKeyDown cnv code)) = currentTick (data cnv))
  /\ (forall code, lastInput (data (onKeyUp cnv code)) = currentTick (data cnv))
  /\ (forall button mx my,
        lastInput (data (onMouseButtonDown cnv button mx my)) = currentTick (data cnv))
  /\ (forall dx dy, lastInput (data (onMouseMove cnv dx dy)) = currentTick (data cnv))
  /\ idle moved = (10000 <? elapsed)
  /\ (10000 < elapsed -> after = set_scene orbit (Scene_projectPoints (scene orbit)))
  /\ (elapsed <= 10000 -> after = set_scene moved (Scene_projectPoints (scene moved)))
  /\ (last_input_tick evs t0 <= u32 ticks ->
      elapsed = u32 ticks - last_input_tick evs t0).
Proof.
  intros Hrun. cbv zeta.
  rewrite <- (lastInput_after_run evs t0 t0' cnv0 cnv Hrun).
  split; [intros; apply onKeyDown_ticks|].
  split; [intros; apply onKeyUp_ticks|].
  split; [intros; apply onMouseButtonDown_ticks|].
  split; [intros; apply onMouseMove_ticks|].
  split; [apply idle_update_move|].
  pose proof (update_cases dt ticks ticks' cnv) as Hc. cbv zeta in Hc.
  unfold idleThreshold in Hc.
  split; [|split].
  - intros Hlt. rewrite Hc. apply Z.ltb_lt in Hlt. now rewrite Hlt.
  - intros Hle. rewrite Hc. apply Z.ltb_ge in Hle. now rewrite Hle.
  - intros Hle. unfold u32 at 1. apply Z.mod_small.
    assert (0 <= u32 ticks < Uint32_modulus) by (apply Z.mod_pos_bound; reflexivity).
    pose proof (last_input_tick_range evs t0) as Hr.
    rewrite <- (lastInput_after_run evs t0 t0' cnv0 cnv Hrun) in Hr.
    lia.
Qed.

End Idle.

Lemma idle_orbit_iff_idle_over_10000_ticks_witness :
  let cnv := onKeyDown (update (of_int 16) 5000 5000 Sample.started) SDLK_w in
  let evs := [EvUpdate (of_int 16) 5000 5000; EvKeyDown SDLK_w] in
  let moved := update_move (of_int 16) 15001 (data cnv) in
  let orbit := calculateCameraPosAndSpeed 15002 moved in
  run evs (init 0 0 zeroed) = Some cnv
  /\ last_input_tick evs 0 = 5000
  /\ data (update (of_int 16) 15001 15002 cnv)
     = set_scene orbit (Scene_projectPoints (scene orbit)).
Proof.
  cbv zeta.
  split; [reflexivity|]. split; [reflexivity|].
  pose proof (idle_orbit_iff_idle_over_10000_ticks
                [EvUpdate (of_int 16) 5000 5000; EvKeyDown SDLK_w] 0 0 zeroed
                (onKeyDown (update (of_int 16) 5000 5000 Sample.started) SDLK_w)
                (of_int 16) 15001 15002 eq_refl) as H.
  cbv zeta in H. destruct H as (_ & _ & _ & _ & _ & H & _).
  apply H. reflexivity.
Defined.

(** ** The frame: update, projection, draw *)

Section Frame.
Context {D : Type} {ar : Arith D} {lm : Libm D} {co : Collaborators D} {nn : HasNaN D}.
Local Open Scope double_scope.

(** C6: [update] first integrates the input and moves the camera, then, if
    idle, repositions it, and only then projects: the projected points it
    leaves are the projections of all the vertices through the camera that it
    leaves.  [draw], run on the result, reads those points and changes neither
    the scene nor the camera nor any other application data. *)
Theorem update_precedes_projection_precedes_draw
    (dt : D) (ticks ticks' : Z) (cnv : CCanvas D) :
  let moved := update_move dt ticks (data cnv) in
  let final := if idle moved then calculateCameraPosAndSpeed ticks' moved else moved in
  let cnv' := update dt ticks ticks' cnv in
  cam (scene (data cnv')) = cam (scene final)
  /\ projectedPoints (scene (data cnv'))
     = map (Camera_project (cam (scene final))) (vertices (scene (data cnv')))
  /\ data cnv' = set_scene final (Scene_projectPoints (scene final))
  /\ draw cnv'
     = draw_edges (projectedPoints (scene (data cnv'))) (edges (scene (data cnv')))
                  (CCanvas_clear cnv')
  /\ (forall cnv'', draw cnv' = Some cnv'' ->
        data cnv'' = data cnv' /\ set_drawn cnv'' (drawn cnv') = cnv').
Proof.
  cbv zeta.
  split; [reflexivity|]. split; [reflexivity|]. split; [reflexivity|].
  split; [reflexivity|]. intros cnv'' Hd.
  split; [exact (draw_data _ _ Hd) | exact (draw_frame _ _ Hd)].
Qed.

(** The scene and the camera after the first part of [init], and what is
    left of that camera when [init] returns. *)
Lemma init_camera (ticks ticks' : Z) (cnv : CCanvas D) :
  let installed := scene (data (init_defaults ticks cnv)) in
  let c := cam installed in
  let c' := cam (scene (data (init ticks ticks' cnv))) in
  installed
  = Scene_setCamera (Scene_erase (scene (data cnv)))
      (Camera_new (Vec3_new (of_int 0) (of_int 0) (of_int 0))
                  (Vec3_new (of_int 0) (of_int 1) (of_int 0))
                  512 512 (lit 314 100 / of_int 3) (lit 314 100 / of_int 3))
  /\ vertices installed = [] /\ edges installed = []
  /\ pos c = mkVec3 (of_int 0) (of_int 0) (of_int 0)
  /\ up c = mkVec3 (of_int 0) (of_int 1) (of_int 0)
  /\ fovHorizontal c = lit 314 100 / of_int 3
  /\ fovVertical c = lit 314 100 / of_int 3
  /\ viewportWidth c = 512 /\ viewportHeight c = 512
  /\ viewportWidth c = windowWidth main_dimensions
  /\ viewportHeight c = windowHeight main_dimensions
  /\ up c' = up c
  /\ fovHorizontal c' = fovHorizontal c /\ fovVertical c' = fovVertical c
  /\ viewportWidth c' = viewportWidth c /\ viewportHeight c' = viewportHeight c.
Proof.
  cbv zeta. unfold init, Scene_loadObj. cbn [data set_data set_scene scene].
  destruct (parseObj "base_scene.obj") as [[vs es]|]; repeat split.
Qed.

(** C9: in an [update] whose tick test fails (at most 10000 ticks since the
    last input) the velocity becomes the damped sum of the old velocity and
    the force, the camera position advances by that velocity times
    [dt / 1000], and the camera's up vector, look direction, fields of view
    and viewport, the vertices and the edges stay as they were, as do the
    movement flags, the move force, the scene radius and the time of the last
    input. *)
Theorem update_without_orbit_moves_position_only
    (dt : D) (ticks ticks' : Z) (cnv : CCanvas D) :
  u32 (u32 ticks - lastInput (data cnv)) <= 10000 ->
  let app := data cnv in
  let app' := data (update dt ticks ticks' cnv) in
  let c := cam (scene app) in
  let c' := cam (scene app') in
  vel app'
  = Vec3_mult (Vec3_add (vel app) (update_force dt app))
              (dpow (lit 1 100000) (dt / of_int 1000))
  /\ pos c' = Vec3_add (pos c) (Vec3_mult (vel app') (dt / of_int 1000))
  /\ up c' = up c
  /\ lookDirection c' = lookDirection c
  /\ fovHorizontal c' = fovHorizontal c /\ fovVertical c' = fovVertical c
  /\ viewportWidth c' = viewportWidth c /\ viewportHeight c' = viewportHeight c
  /\ vertices (scene app') = vertices (scene app)
  /\ edges (scene app') = edges (scene app)
  /\ set_moving app' (movingForward app) (movingBackward app) (movingLeft app)
       (movingRight app) (movingUp app) (movingDown app) = app'
  /\ moveForce app' = moveForce app
  /\ sceneRadius app' = sceneRadius app
  /\ lastInput app' = lastInput app.
Proof.
  intros Hle. cbv zeta.
  rewrite (update_cases dt ticks ticks' cnv). cbv zeta.
  apply Z.ltb_ge in Hle. unfold idleThreshold. rewrite Hle.
  destruct cnv as [[[vs es pp [p u l w h fh fv]] v mf f1 f2 f3 f4 f5 f6 r li ct] bg br dr wt rm].
  repeat split.
Qed.

End Frame.

Lemma update_precedes_projection_precedes_draw_witness :
  let cnv' := update (of_int 16) 100 100 Sample.started in
  exists cnv'', draw cnv' = Some cnv'' /\ data cnv'' = data cnv'.
Proof.
  cbv zeta.
  destruct (draw_defined (update (of_int 16) 100 100 Sample.started)
              (update_consistent (of_int 16) 100 100 Sample.started
                 (reachable_consistent Sample.started Sample_parser_valid
                    (reachable_init 0 0 zeroed))))
    as [cnv'' Hd].
  exists cnv''. split; [exact Hd|].
  pose proof (update_precedes_projection_precedes_draw
                (of_int 16) 100 100 Sample.started) as H.
  cbv zeta in H. destruct H as (_ & _ & _ & _ & H).
  exact (proj1 (H cnv'' Hd)).
Defined.

Lemma update_without_orbit_moves_position_only_witness :
  let app := data Sample.started in
  let app' := data (update (of_int 16) 100 100 Sample.started) in
  u32 (u32 100 - lastInput app) <= 10000
  /\ pos (cam (scene app'))
     = Vec3_add (pos (cam (scene app)))
         (Vec3_mult (vel app') (of_int 16 / of_int 1000)%D)
  /\ lookDirection (cam (scene app')) = lookDirection (cam (scene app))
  /\ vertices (scene app') = vertices (scene app).
Proof.
  cbv zeta.
  assert (Hle : u32 (u32 100 - lastInput (data Sample.started)) <= 10000).
  { lazy. discriminate. }
  split; [exact Hle|].
  pose proof (update_without_orbit_moves_position_only
                (of_int 16) 100 100 Sample.started Hle) as H.
  cbv zeta in H.
  destruct H as (_ & Hpos & _ & Hlook & _ & _ & _ & _ & Hv & _).
  split; [exact Hpos|]. split; [exact Hlook | exact Hv].
Defined.

(** ** Exact arithmetic: lengths and scaling *)

(** What the formulas of [main.c] give when nothing is rounded: a rescaled
    vector has exactly the length asked for, and the force and the orbit
    scale exactly with the stored radius.  Binary64 rounds every operation;
    what holds there is proved further down. *)

Section ExactFacts.
Context {co : Collaborators Exact.double}.
Local Open Scope double_scope.

(** A squared length is not negative, and is positive off the zero
    vector. *)
Lemma sq_nonneg (a b c : R) : (0 <= sq a b c)%R.
Proof. unfold sq. nra. Qed.

Lemma sq_pos (a b c : R) : (a <> 0 \/ b <> 0 \/ c <> 0)%R -> (0 < sq a b c)%R.
Proof. unfold sq. intros [H|[H|H]]; nra. Qed.

(** A literal and a quotient by a number other than zero are numbers. *)
Lemma Exact_lit (n d : Z) :
  IZR d <> 0%R -> @lit Exact.double _ n d = Some (IZR n / IZR d)%R.
Proof.
  intros Hd. unfold lit. simpl. unfold Exact.div.
  destruct (Req_dec_T (IZR d) 0); [contradiction | reflexivity].
Qed.

Lemma Exact_div (p q : R) :
  q <> 0%R -> @ddiv Exact.double _ (Some p) (Some q) = Some (p / q)%R.
Proof.
  intros Hq. simpl. unfold Exact.div.
  destruct (Req_dec_T q 0); [contradiction | reflexivity].
Qed.

(** Squared length and length of a vector of numbers. *)
Lemma Exact_sqLength (a b c : R) : Vec3_sqLength (finite a b c) = Some (sq a b c).
Proof. reflexivity. Qed.

Lemma Exact_length (a b c : R) : Vec3_length (finite a b c) = Some (sqrt (sq a b c)).
Proof.
  unfold Vec3_length. rewrite Exact_sqLength. simpl. unfold Exact.sqrt.
  destruct (Rlt_dec (sq a b c) 0) as [H|H]; [|reflexivity].
  pose proof (sq_nonneg a b c). lra.
Qed.

(** [u != 0] on a number. *)
Lemma Exact_neq_0 (p : R) :
  @dneq Exact.double _ (Some p) (of_int 0) = true <-> p <> 0%R.
Proof.
  simpl. unfold Exact.neq. destruct (Req_dec_T p 0); split; intros; try easy.
Qed.

(** Off the zero vector the length is positive. *)
Lemma norm_nonzero (a b c : R) :
  (a <> 0 \/ b <> 0 \/ c <> 0)%R -> (0 < sqrt (sq a b c))%R.
Proof. intros H. apply sqrt_lt_R0, sq_pos, H. Qed.

(** [Vec3_setLength] off the zero vector: every component is multiplied by
    the target over the length. *)
Lemma Exact_setLength (a b c t : R) :
  (a <> 0 \/ b <> 0 \/ c <> 0)%R ->
  let n := sqrt (sq a b c) in
  Vec3_setLength (finite a b c) (Some t)
  = finite (a * (t / n)) (b * (t / n)) (c * (t / n)).
Proof.
  intros Hnz. unfold Vec3_setLength. cbv zeta. rewrite Exact_length.
  assert (Hn : sqrt (sq a b c) <> 0%R) by (apply Rgt_not_eq, norm_nonzero, Hnz).
  rewrite (proj2 (Exact_neq_0 _) Hn), (Exact_div t _ Hn). reflexivity.
Qed.

(** The squared length after rescaling to [t] is [t * t]. *)
Lemma sq_scaled (a b c t : R) :
  (a <> 0 \/ b <> 0 \/ c <> 0)%R ->
  let n := sqrt (sq a b c) in
  sq (a * (t / n)) (b * (t / n)) (c * (t / n)) = (t * t)%R.
Proof.
  intros Hnz n.
  assert (Hpos : (0 < sq a b c)%R) by now apply sq_pos.
  assert (Hn : n <> 0%R) by (apply Rgt_not_eq, norm_nonzero, Hnz).
  assert (Hnn : (n * n = sq a b c)%R) by (apply sqrt_sqrt; lra).
  unfold sq in *.
  replace (a * (t / n) * (a * (t / n)) + b * (t / n) * (b * (t / n))
           + c * (t / n) * (c * (t / n)))%R
    with ((a * a + b * b + c * c) * (t * t) / (n * n))%R by (field; exact Hn).
  rewrite Hnn. field. lra.
Qed.

(** After [Vec3_setLength] to [t] the length is the absolute value of
    [t]. *)
Lemma Exact_setLength_length (a b c t : R) :
  (a <> 0 \/ b <> 0 \/ c <> 0)%R ->
  Vec3_length (Vec3_setLength (finite a b c) (Some t)) = Some (Rabs t).
Proof.
  intros Hnz. rewrite (Exact_setLength a b c t Hnz). cbv zeta.
  rewrite Exact_length, (sq_scaled a b c t Hnz).
  f_equal. apply sqrt_Rsqr_abs.
Qed.

(** Normalising a vector of length 1 gives it back. *)
Lemma Exact_setLength_unit (a b c : R) :
  sq a b c = 1%R -> Vec3_setLength (finite a b c) (of_int 1) = finite a b c.
Proof.
  intros H1.
  assert (Hnz : (a <> 0 \/ b <> 0 \/ c <> 0)%R).
  { destruct (Req_dec_T a 0) as [->|]; [|now left].
    destruct (Req_dec_T b 0) as [->|]; [|now right; left].
    right; right. intros ->. unfold sq in H1. lra. }
  change (of_int 1) with (Some 1%R).
  rewrite (Exact_setLength a b c 1 Hnz). cbv zeta. rewrite H1, sqrt_1.
  unfold finite. f_equal; f_equal; field.
Qed.

(** The guard of line 98 implies the guard inside [Vec3_setLength]: a
    squared length other than zero has a square root other than zero. *)
Lemma sqLength_guard (f : Vec3 Exact.double) :
  dneq (Vec3_sqLength f) (of_int 0) = true ->
  dneq (Vec3_length f) (of_int 0) = true.
Proof.
  unfold Vec3_length.
  destruct (Vec3_sqLength f) as [s|] eqn:E; [|reflexivity].
  intros Hs. apply Exact_neq_0 in Hs.
  assert (0 <= s)%R.
  { destruct f as [[a|] [b|] [c|]]; try discriminate.
    injection E as <-. apply (sq_nonneg a b c). }
  simpl. unfold Exact.sqrt. destruct (Rlt_dec s 0); [reflexivity|].
  apply Exact_neq_0. apply Rgt_not_eq, sqrt_lt_R0. lra.
Qed.



(** Multiplying a vector by [k >= 0] multiplies its length by [k]. *)
Lemma Exact_length_scaled (v : Vec3 Exact.double) (k : R) :
  (0 <= k)%R -> Vec3_length (Vec3_mult v (Some k)) = Vec3_length v * Some k.
Proof.
  intros Hk. destruct v as [[a|] [b|] [c|]]; try reflexivity.
  change (Vec3_mult (mkVec3 (Some a) (Some b) (Some c)) (Some k))
    with (finite (a * k) (b * k) (c * k)).
  change (mkVec3 (Some a) (Some b) (Some c)) with (finite a b c).
  rewrite !Exact_length. simpl. f_equal.
  replace (sq (a * k) (b * k) (c * k)) with (sq a b c * (k * k))%R
    by (unfold sq; ring).
  rewrite sqrt_mult; [|apply sq_nonneg|nra].
  now rewrite sqrt_square.
Qed.

(** The scalar of line 103 with the radius scaled by [k]. *)
Lemma Exact_mul_scale (u r k dt mf c : Exact.double) :
  u * (r * k * dt * mf * c) = u * (r * dt * mf * c) * k.
Proof.
  destruct u, r, k, dt, mf, c; simpl; try reflexivity. f_equal. ring.
Qed.

(** The force of [update] with the radius scaled by [k]. *)
Lemma update_force_scale (k dt : Exact.double) (app : SoftwareRenderer Exact.double) :
  update_force dt (set_sceneRadius app (sceneRadius app * k))
  = Vec3_mult (update_force dt app) k.
Proof.
  unfold update_force.
  change (update_direction (set_sceneRadius app (sceneRadius app * k)))
    with (update_direction app).
  cbn [set_sceneRadius sceneRadius moveForce].
  unfold Vec3_mult. cbn [vx vy vz].
  f_equal; apply Exact_mul_scale.
Qed.

(** The height of the orbit with the radius scaled by [k]. *)
Lemma Exact_height_scale (r k : Exact.double) :
  r * k / lit 12 10 = r / lit 12 10 * k.
Proof.
  rewrite Exact_lit by lra.
  destruct r as [r|], k as [k|]; try reflexivity.
  - simpl. unfold Exact.div. destruct (Req_dec_T (12 / 10) 0); [lra|].
    simpl. f_equal. field.
  - simpl. unfold Exact.div. destruct (Req_dec_T (12 / 10) 0); reflexivity.
Qed.

(** A cylindrical point with radius and height scaled by [k]. *)
Lemma Exact_cylindrical_scale (r angle h k : Exact.double) :
  Vec3_cylindrical (r * k) angle (h * k) = Vec3_mult (Vec3_cylindrical r angle h) k.
Proof.
  unfold Vec3_cylindrical, Vec3_new, Vec3_mult. cbn [vx vy vz].
  f_equal; destruct r, k, angle; simpl; try reflexivity; f_equal; ring.
Qed.

(** Scaling the stored scene radius by [k], over exact arithmetic. *)
Lemma Exact_scaling
    (k dt : Exact.double) (ticks : Z) (app : SoftwareRenderer Exact.double) :
  let r := sceneRadius app in
  let scaled := set_sceneRadius app (r * k) in
  let angle := of_int (u32 ticks) / of_int 2000 in
  let p := pos (cam (scene (calculateCameraPosAndSpeed ticks app))) in
  let p' := pos (cam (scene (calculateCameraPosAndSpeed ticks scaled))) in
  update_force dt scaled = Vec3_mult (update_force dt app) k
  /\ (forall q, k = Some q -> (0 <= q)%R ->
        Vec3_length (update_force dt scaled) = Vec3_length (update_force dt app) * k)
  /\ p = Vec3_cylindrical r angle (r / lit 12 10)
  /\ p' = Vec3_cylindrical (r * k) angle (r / lit 12 10 * k)
  /\ p' = Vec3_mult p k.
Proof.
  cbv zeta. split; [apply update_force_scale|].
  split.
  { intros q -> Hq. rewrite update_force_scale. now apply Exact_length_scaled. }
  split; [reflexivity|].
  assert (H : pos (cam (scene (calculateCameraPosAndSpeed ticks
                                 (set_sceneRadius app (sceneRadius app * k)))))
              = Vec3_cylindrical (sceneRadius app * k)
                  (of_int (u32 ticks) / of_int 2000)
                  (sceneRadius app / lit 12 10 * k)).
  { rewrite <- Exact_height_scale. reflexivity. }
  split; [exact H|].
  rewrite H. apply Exact_cylindrical_scale.
Qed.

(** Line 98 of [update] over exact arithmetic: the guard, what it
    guarantees to [Vec3_setLength], and the length of the result. *)
Lemma Exact_update_normalise

    (app : SoftwareRenderer Exact.double) :
  let f := update_horizontal app in
  let h := update_normalise f in
  (dneq (Vec3_sqLength f) (of_int 0) = false -> h = f)
  /\ (dneq (Vec3_sqLength f) (of_int 0) = true ->
        dneq (Vec3_length f) (of_int 0) = true
        /\ h = Vec3_setLength f (of_int 1)
        /\ h = Vec3_mult f (of_int 1 / Vec3_length f))
  /\ (forall a b c,
        f = finite a b c -> (a <> 0 \/ b <> 0 \/ c <> 0)%R ->
        dneq (Vec3_sqLength f) (of_int 0) = true /\ Vec3_length h = of_int 1).
Proof.
  cbv zeta. set (f := update_horizontal app). unfold update_normalise.
  split; [intros ->; reflexivity|]. split.
  - intros Hs. rewrite Hs. pose proof (sqLength_guard f Hs) as Hl.
    split; [exact Hl|]. split; [reflexivity|].
    unfold Vec3_setLength. cbv zeta. now rewrite Hl.
  - intros a b c Hf Hnz. rewrite Hf, Exact_sqLength.
    assert (Hs : @dneq Exact.double _ (Some (sq a b c)) (of_int 0) = true).
    { apply Exact_neq_0, Rgt_not_eq, sq_pos, Hnz. }
    rewrite Hs. split; [reflexivity|].
    change (of_int 1) with (Some 1%R) at 1.
    rewrite (Exact_setLength_length a b c 1 Hnz), Rabs_R1. reflexivity.
Qed.




(** Rescaling a position other than the origin to length -1 gives a vector
    of length 1 that normalising leaves alone and that points from the
    position to the origin. *)
Lemma Exact_orbit_direction (a b c : R) :
  (a <> 0 \/ b <> 0 \/ c <> 0)%R ->
  let d := Vec3_setLength (finite a b c) (of_int (-1)) in
  Vec3_setLength (Vec3_copy d) (of_int 1) = d
  /\ Vec3_length d = of_int 1
  /\ Vec3_mult d (Vec3_length (finite a b c))
     = Vec3_sub (Vec3_new (of_int 0) (of_int 0) (of_int 0)) (finite a b c).
Proof.
  intros Hnz. cbv zeta.
  change (@of_int Exact.double _ (-1)) with (Some (-1)%R).
  pose proof (norm_nonzero a b c Hnz) as Hn.
  rewrite (Exact_setLength a b c (-1) Hnz). cbv zeta. unfold Vec3_copy.
  split; [|split].
  - apply Exact_setLength_unit. rewrite (sq_scaled a b c (-1) Hnz). ring.
  - rewrite Exact_length, (sq_scaled a b c (-1) Hnz).
    replace ((-1) * (-1))%R with 1%R by ring. now rewrite sqrt_1.
  - rewrite Exact_length. unfold finite, Vec3_mult, Vec3_sub, Vec3_new.
    cbn [vx vy vz]. simpl. f_equal; f_equal; field; lra.
Qed.

End ExactFacts.

(** ** The default camera *)

(** Four decimals of pi, from the series of Machin type in [Reals]. *)
Lemma PI_bounds : (3.1415 < PI < 3.1421)%R.
Proof.
  pose proof (PI_2_3_7_ineq 1) as H.
  unfold sum_f_R0, tg_alt, PI_2_3_7_tg, Ratan_seq in H.
  simpl in H. split; lra.
Qed.

(** The default field of view in exact arithmetic, and in degrees. *)
Lemma Exact_default_fov :
  (@lit Exact.double _ 314 100 / of_int 3)%D = Some (314 / 100 / 3)%R
  /\ (59.9 < 314 / 100 / 3 * 180 / PI < 60.1)%R.
Proof.
  split.
  - rewrite Exact_lit by lra.
    change (@of_int Exact.double _ 3) with (Some 3%R).
    now rewrite Exact_div by lra.
  - pose proof PI_bounds as [Hlo Hhi].
    assert (Hi : (/ 3.1421 < / PI < / 3.1415)%R)
      by (split; apply Rinv_lt_contravar; nra).
    replace (314 / 100 / 3 * 180 / PI)%R with (1884 / 10 * / PI)%R by (field; lra).
    lra.
Qed.


(** C7: [init] erases the scene and installs a camera at the origin, with up
    vector (0, 1, 0), both fields of view [3.14 / 3] and a viewport of 512 by
    512, the window's dimensions given in [main]; the scene is then empty.
    When [init] returns, the up vector, the fields of view and the viewport
    are still those.  In exact arithmetic the field of view is within a tenth
    of a degree of 60 degrees. *)
Theorem init_installs_default_camera :
  (forall (D : Type) (ar : Arith D) (lm : Libm D) (co : Collaborators D)
          (ticks ticks' : Z) (cnv : CCanvas D),
      let installed := scene (data (init_defaults ticks cnv)) in
      let c := cam installed in
      let c' := cam (scene (data (init ticks ticks' cnv))) in
      vertices installed = [] /\ edges installed = []
      /\ pos c = mkVec3 (of_int 0) (of_int 0) (of_int 0)
      /\ up c = mkVec3 (of_int 0) (of_int 1) (of_int 0)
      /\ fovHorizontal c = (lit 314 100 / of_int 3)%D
      /\ fovVertical c = (lit 314 100 / of_int 3)%D
      /\ viewportWidth c = 512 /\ viewportHeight c = 512
      /\ viewportWidth c = windowWidth main_dimensions
      /\ viewportHeight c = windowHeight main_dimensions
      /\ up c' = up c
      /\ fovHorizontal c' = fovHorizontal c /\ fovVertical c' = fovVertical c
      /\ viewportWidth c' = viewportWidth c /\ viewportHeight c' = viewportHeight c)
  /\ (exists f : R,
        (@lit Exact.double _ 314 100 / of_int 3)%D = Some f
        /\ (59.9 < f * 180 / PI < 60.1)%R).
Proof.
  split.
  - intros D ar lm co ticks ticks' cnv.
    exact (proj2 (init_camera ticks ticks' cnv)).
  - exists (314 / 100 / 3)%R. exact Exact_default_fov.
Qed.

(** ** Binary64: sign bits *)

















(** ** Binary64: zeros *)

(** The squared length and the length of a vector of zeros compare equal
    to 0. *)
Lemma B64_zeros_sqLength (f : Vec3 B64.double) :
  B64_zeros f = true -> dneq (Vec3_sqLength f) (of_int 0) = false.
Proof.
  destruct f as [[sx|sx| |sx mx ex] [sy|sy| |sy my ey] [sz|sz| |sz mz ez]];
    try discriminate.
  intros _. destruct sx, sy, sz; reflexivity.
Qed.







(** ** Binary64: factors that are powers of two *)

















(** ** The idle orbit *)

Section Orbit.
Context {D : Type} {ar : Arith D}.
Local Open Scope double_scope.


End Orbit.






(** ** The size of the scene *)




(** ** The horizontal force *)

Section Normalise.
Context {D : Type} {ar : Arith D}.
Local Open Scope double_scope.


End Normalise.





(** A force that is not zero is not always rescaled: the square of
    [2^-600] underflows to zero in binary64, and line 98 leaves the
    vector. *)
Example update_normalise_underflow :
  let v := mkVec3 (of_int 0) (of_int 0) (S754_finite false 4503599627370496 (-652)) in
  B64_zeros v = false
  /\ Vec3_sqLength v = S754_zero false
  /\ update_normalise v = v.
Proof. cbv zeta. repeat split; vm_compute; reflexivity. Qed.

(** * Further properties of [main.c] *)

(** ** Initialisation and what stays as [init] left it *)

Section Configuration.
Context {D : Type} {ar : Arith D} {lm : Libm D} {co : Collaborators D} {nn : HasNaN D}.

(** X1: [init] assigns every member of the application data before it is
    read ([Scene_erase] resetting the scene): the data, the colours and the
    registered callbacks after [init] are the same whatever the memory held
    before. *)
Theorem init_reads_no_old_member (ticks ticks' : Z) (cnv cnv' : CCanvas D) :
  data (init ticks ticks' cnv) = data (init ticks ticks' cnv')
  /\ bgColor (init ticks ticks' cnv) = bgColor (init ticks ticks' cnv')
  /\ brushColor (init ticks ticks' cnv) = brushColor (init ticks ticks' cnv')
  /\ watchers (init ticks ticks' cnv) = watchers (init ticks ticks' cnv').
Proof.
  destruct cnv as [app bg br dr wt rm], cnv' as [app' bg' br' dr' wt' rm'].
  repeat split.
Qed.

Lemma init_configured (ticks ticks' : Z) (cnv : CCanvas D) :
  configured (init ticks ticks' cnv).
Proof.
  unfold configured.
  assert (Hr : 0 <= u32 ticks < Uint32_modulus) by (apply Z.mod_pos_bound; reflexivity).
  split; [reflexivity|]. split; [reflexivity|]. split; [reflexivity|].
  split; [reflexivity|]. split; exact Hr.
Qed.

Lemma dispatch_configured (ev : Event) (cnv cnv' : CCanvas D) :
  dispatch ev cnv = Some cnv' -> configured cnv -> configured cnv'.
Proof.
  unfold configured. intros Hd (Hw & Hbg & Hbr & Hmf & Hct & Hli).
  destruct ev as [code|code|button mx my|dx dy|fileName ticks|dt ticks ticks'|];
    simpl in Hd; rewrite ?Hw in Hd; simpl in Hd.
  - injection Hd as <-. unfold onKeyDown.
    repeat destruct (code =? _); simpl; auto 10.
  - injection Hd as <-. unfold onKeyUp.
    repeat destruct (code =? _); simpl; auto 10.
  - injection Hd as <-. unfold onMouseButtonDown.
    destruct (button =? SDL_BUTTON_LEFT); [destruct (negb _)|]; simpl; auto 10.
  - injection Hd as <-. simpl. auto 10.
  - injection Hd as <-. simpl. auto 10.
  - injection Hd as <-. unfold update.
    assert (Hr : 0 <= u32 ticks < Uint32_modulus)
      by (apply Z.mod_pos_bound; reflexivity).
    destruct (idle (update_move dt ticks (data cnv))); simpl; auto 10.
  - pose proof (draw_data _ _ Hd) as Hdata. apply draw_frame in Hd.
    rewrite Hdata. rewrite <- Hd in Hw, Hbg, Hbr. simpl in Hw, Hbg, Hbr. auto 10.
Qed.

(** X2: in every state the program reaches, the five callbacks are still
    registered, the background is black and the brush white, [moveForce] is
    still 1, and both recorded ticks are [Uint32] values: nothing after
    [init] assigns the first four. *)
Theorem reachable_configured (cnv : CCanvas D) :
  reachable cnv -> configured cnv.
Proof.
  induction 1 as [ticks ticks' cnv0 | ev cnv cnv' _ IH Hd].
  - apply init_configured.
  - exact (dispatch_configured ev cnv cnv' Hd IH).
Qed.

End Configuration.

(** ** Runs of the program *)

Section Runs.
Context {D : Type} {ar : Arith D} {lm : Libm D} {co : Collaborators D} {nn : HasNaN D}.

(** The six flags of an application, in the order of the struct. *)
Lemma onKeyDown_flags (cnv : CCanvas D) (code : Z) :
  let app := data cnv in
  let app' := data (onKeyDown cnv code) in
  movingForward app' = (if code =? SDLK_w then true else movingForward app)
  /\ movingBackward app' = (if code =? SDLK_s then true else movingBackward app)
  /\ movingLeft app' = (if code =? SDLK_a then true else movingLeft app)
  /\ movingRight app' = (if code =? SDLK_d then true else movingRight app)
  /\ movingUp app' = (if code =? SDLK_SPACE then true else movingUp app)
  /\ movingDown app' = (if code =? SDLK_LSHIFT then true else movingDown app)
  /\ relativeMouseMode (onKeyDown cnv code)
     = (if code =? SDLK_ESCAPE then false else relativeMouseMode cnv).
Proof.
  cbv zeta. unfold onKeyDown.
  destruct (Z.eqb_spec code SDLK_w) as [->|]; [repeat split|].
  destruct (Z.eqb_spec code SDLK_s) as [->|]; [repeat split|].
  destruct (Z.eqb_spec code SDLK_a) as [->|]; [repeat split|].
  destruct (Z.eqb_spec code SDLK_d) as [->|]; [repeat split|].
  destruct (Z.eqb_spec code SDLK_SPACE) as [->|]; [repeat split|].
  destruct (Z.eqb_spec code SDLK_LSHIFT) as [->|]; [repeat split|].
  destruct (Z.eqb_spec code SDLK_ESCAPE) as [->|]; repeat split.
Qed.

Lemma onKeyUp_flags (cnv : CCanvas D) (code : Z) :
  let app := data cnv in
  let app' := data (onKeyUp cnv code) in
  movingForward app' = (if code =? SDLK_w then false else movingForward app)
  /\ movingBackward app' = (if code =? SDLK_s then false else movingBackward app)
  /\ movingLeft app' = (if code =? SDLK_a then false else movingLeft app)
  /\ movingRight app' = (if code =? SDLK_d then false else movingRight app)
  /\ movingUp app' = (if code =? SDLK_SPACE then false else movingUp app)
  /\ movingDown app' = (if code =? SDLK_LSHIFT then false else movingDown app)
  /\ relativeMouseMode (onKeyUp cnv code)
     = (if code =? SDLK_ESCAPE then false else relativeMouseMode cnv).
Proof.
  cbv zeta. unfold onKeyUp.
  destruct (Z.eqb_spec code SDLK_ESCAPE) as [->|]; [repeat split|].
  destruct (Z.eqb_spec code SDLK_w) as [->|]; [repeat split|].
  destruct (Z.eqb_spec code SDLK_s) as [->|]; [repeat split|].
  destruct (Z.eqb_spec code SDLK_a) as [->|]; [repeat split|].
  destruct (Z.eqb_spec code SDLK_d) as [->|]; [repeat split|].
  destruct (Z.eqb_spec code SDLK_SPACE) as [->|]; [repeat split|].
  destruct (Z.eqb_spec code SDLK_LSHIFT) as [->|]; repeat split.
Qed.

(** [onMouseButtonDown] records the time, and the left button turns the
    relative mouse mode on. *)
Lemma onMouseButtonDown_effect (cnv : CCanvas D) (button mx my : Z) :
  data (onMouseButtonDown cnv button mx my)
  = set_lastInput (data cnv) (currentTick (data cnv))
  /\ relativeMouseMode (onMouseButtonDown cnv button mx my)
     = (if button =? SDL_BUTTON_LEFT then true else relativeMouseMode cnv).
Proof.
  unfold onMouseButtonDown, SDL_GetRelativeMouseMode.
  destruct cnv as [app bg br dr wt [|]];
    destruct (button =? SDL_BUTTON_LEFT); split; reflexivity.
Qed.

(** The flags and the mouse mode that a run leaves, from any state in which
    the callbacks are registered. *)
Lemma run_flags (evs : list Event) :
  forall cnv cnv' : CCanvas D,
    watchers cnv = all_watched ->
    run evs cnv = Some cnv' ->
    movingForward (data cnv') = key_held SDLK_w evs (movingForward (data cnv))
    /\ movingBackward (data cnv') = key_held SDLK_s evs (movingBackward (data cnv))
    /\ movingLeft (data cnv') = key_held SDLK_a evs (movingLeft (data cnv))
    /\ movingRight (data cnv') = key_held SDLK_d evs (movingRight (data cnv))
    /\ movingUp (data cnv') = key_held SDLK_SPACE evs (movingUp (data cnv))
    /\ movingDown (data cnv') = key_held SDLK_LSHIFT evs (movingDown (data cnv))
    /\ relativeMouseMode cnv' = mouse_mode evs (relativeMouseMode cnv).
Proof.
  induction evs as [|ev evs IH]; intros cnv cnv' Hw H.
  - injection H as <-. repeat split.
  - cbn [run] in H. destruct (dispatch ev cnv) as [cnv1|] eqn:E; [|discriminate].
    destruct (dispatch_history ev cnv cnv1 Hw E) as [Hw1 _].
    specialize (IH cnv1 cnv' Hw1 H).
    destruct ev as [code|code|button mx my|dx dy|fileName ticks|dt ticks ticks'|];
      simpl in E; rewrite ?Hw in E; simpl in E; cbn [key_held mouse_mode].
    + injection E as <-.
      destruct (onKeyDown_flags cnv code) as (<- & <- & <- & <- & <- & <- & <-).
      exact IH.
    + injection E as <-.
      destruct (onKeyUp_flags cnv code) as (<- & <- & <- & <- & <- & <- & <-).
      exact IH.
    + injection E as <-.
      destruct (onMouseButtonDown_effect cnv button mx my) as [Hdata Hmode].
      rewrite Hdata, Hmode in IH. exact IH.
    + injection E as <-. exact IH.
    + injection E as <-. exact IH.
    + injection E as <-.
      replace (relativeMouseMode cnv)
        with (relativeMouseMode (update dt ticks ticks' cnv)) by reflexivity.
      assert (Hd : data (update dt ticks ticks' cnv)
                   = set_scene (set_vel (set_currentTick (data cnv) (u32 ticks))
                                        (vel (data (update dt ticks ticks' cnv))))
                               (scene (data (update dt ticks ticks' cnv)))).
      { unfold update. destruct (idle (update_move dt ticks (data cnv))); reflexivity. }
      rewrite Hd in IH. exact IH.
    + pose proof (draw_data _ _ E) as Hdata. apply draw_frame in E.
      assert (Hm : relativeMouseMode cnv1 = relativeMouseMode cnv)
        by (rewrite <- E; reflexivity).
      rewrite Hdata, Hm in IH. exact IH.
Qed.

(** X3: after any run from [init], each of the six movement flags tells
    whether its key (W, S, A, D, Space, left Shift) is held, that is whether
    the latest event of that key was a key-down; keys do not interfere with
    one another. *)
Theorem flags_mirror_keys
    (evs : list Event) (ticks ticks' : Z) (cnv0 cnv : CCanvas D) :
  run evs (init ticks ticks' cnv0) = Some cnv ->
  movingForward (data cnv) = key_held SDLK_w evs false
  /\ movingBackward (data cnv) = key_held SDLK_s evs false
  /\ movingLeft (data cnv) = key_held SDLK_a evs false
  /\ movingRight (data cnv) = key_held SDLK_d evs false
  /\ movingUp (data cnv) = key_held SDLK_SPACE evs false
  /\ movingDown (data cnv) = key_held SDLK_LSHIFT evs false.
Proof.
  intros H.
  destruct (run_flags evs _ _ (proj2 (proj2 (init_ticks ticks ticks' cnv0))) H)
    as (H1 & H2 & H3 & H4 & H5 & H6 & _).
  repeat split; assumption.
Qed.

(** X4: [init] leaves SDL's relative mouse mode alone; after any run it is
    on if the latest of the events that touch it was a press of the left
    mouse button, and off if it was Escape, pressed or released; no other
    event changes it. *)
Theorem mouse_mode_follows_clicks_and_escape
    (evs : list Event) (ticks ticks' : Z) (cnv0 cnv : CCanvas D) :
  run evs (init ticks ticks' cnv0) = Some cnv ->
  relativeMouseMode cnv = mouse_mode evs (relativeMouseMode cnv0).
Proof.
  intros H.
  destruct (run_flags evs _ _ (proj2 (proj2 (init_ticks ticks ticks' cnv0))) H)
    as (_ & _ & _ & _ & _ & _ & Hm).
  exact Hm.
Qed.

End Runs.

(** ** What changes when *)

Section Changes.
Context {D : Type} {ar : Arith D} {lm : Libm D} {co : Collaborators D} {nn : HasNaN D}.

(** X5: [update], whether it repositions the camera or not, leaves the
    vertices, the edges, the camera's up vector, fields of view and viewport,
    the six flags, [moveForce], [sceneRadius], the time of the last input,
    and on the canvas the colours, the registered callbacks, the mouse mode
    and what is drawn. *)
Theorem update_leaves (dt : D) (ticks ticks' : Z) (cnv : CCanvas D) :
  let app := data cnv in
  let cnv' := update dt ticks ticks' cnv in
  let app' := data cnv' in
  let c := cam (scene app) in
  let c' := cam (scene app') in
  vertices (scene app') = vertices (scene app)
  /\ edges (scene app') = edges (scene app)
  /\ up c' = up c
  /\ fovHorizontal c' = fovHorizontal c /\ fovVertical c' = fovVertical c
  /\ viewportWidth c' = viewportWidth c /\ viewportHeight c' = viewportHeight c
  /\ set_moving app' (movingForward app) (movingBackward app) (movingLeft app)
       (movingRight app) (movingUp app) (movingDown app) = app'
  /\ moveForce app' = moveForce app
  /\ sceneRadius app' = sceneRadius app
  /\ lastInput app' = lastInput app
  /\ set_data cnv' app = cnv.
Proof.
  cbv zeta. unfold update.
  destruct cnv as [[[vs es pp [p u l w h fh fv]] v mf f1 f2 f3 f4 f5 f6 r li ct] bg br dr wt rm].
  destruct (idle _); repeat split.
Qed.

(** One event without a file drop keeps the geometry and the stored radius;
    one event other than an update keeps the velocity and the current
    tick. *)
Lemma dispatch_changes (ev : Event) (cnv cnv' : CCanvas D) :
  dispatch ev cnv = Some cnv' ->
  (is_file_drop ev = false ->
     vertices (scene (data cnv')) = vertices (scene (data cnv))
     /\ edges (scene (data cnv')) = edges (scene (data cnv))
     /\ sceneRadius (data cnv') = sceneRadius (data cnv))
  /\ (is_update ev = false ->
        vel (data cnv') = vel (data cnv)
        /\ currentTick (data cnv') = currentTick (data cnv)).
Proof.
  intros Hd.
  destruct ev as [code|code|button mx my|dx dy|fileName ticks|dt ticks ticks'|];
    simpl in Hd.
  - injection Hd as <-. destruct (watchKeyDown _); [|repeat split].
    unfold onKeyDown. repeat destruct (code =? _); repeat split.
  - injection Hd as <-. destruct (watchKeyUp _); [|repeat split].
    unfold onKeyUp. repeat destruct (code =? _); repeat split.
  - injection Hd as <-. destruct (watchMouseButtonDown _); [|repeat split].
    destruct (onMouseButtonDown_effect cnv button mx my) as [-> _]. repeat split.
  - injection Hd as <-. destruct (watchMouseMove _); repeat split.
  - injection Hd as <-. split; [discriminate|].
    destruct (watchFileDrop _); repeat split.
  - injection Hd as <-. split; [|discriminate]. intros _.
    unfold update. destruct (idle _); repeat split.
  - apply draw_data in Hd. rewrite Hd. repeat split.
Qed.

(** X6: the geometry and the stored scene radius change on a file drop
    only, the velocity and the current tick in [update] only: a run without
    file drops keeps the vertices, the edges and [sceneRadius], and a run
    without updates keeps the velocity and the current tick. *)
Theorem run_changes (evs : list Event) :
  forall cnv cnv' : CCanvas D,
    run evs cnv = Some cnv' ->
    (forallb (fun ev => negb (is_file_drop ev)) evs = true ->
       vertices (scene (data cnv')) = vertices (scene (data cnv))
       /\ edges (scene (data cnv')) = edges (scene (data cnv))
       /\ sceneRadius (data cnv') = sceneRadius (data cnv))
    /\ (forallb (fun ev => negb (is_update ev)) evs = true ->
          vel (data cnv') = vel (data cnv)
          /\ currentTick (data cnv') = currentTick (data cnv)).
Proof.
  induction evs as [|ev evs IH]; intros cnv cnv' H.
  - injection H as <-. repeat split.
  - cbn [run] in H. destruct (dispatch ev cnv) as [cnv1|] eqn:E; [|discriminate].
    destruct (dispatch_changes ev cnv cnv1 E) as [Hg Hv].
    destruct (IH cnv1 cnv' H) as [IHg IHv]. cbn [forallb]. split.
    + intros Hall. apply andb_prop in Hall as [Hev Hrest].
      apply negb_true_iff in Hev.
      destruct (IHg Hrest) as (-> & -> & ->). exact (Hg Hev).
    + intros Hall. apply andb_prop in Hall as [Hev Hrest].
      apply negb_true_iff in Hev.
      destruct (IHv Hrest) as (-> & ->). exact (Hv Hev).
Qed.

(** While the tick counter has not wrapped, the time of the last input is
    never ahead of the current tick. *)
Lemma run_ticks_ordered (evs : list Event) :
  forall cnv cnv' : CCanvas D,
    watchers cnv = all_watched ->
    run evs cnv = Some cnv' ->
    ticks_ordered evs (currentTick (data cnv)) = true ->
    0 <= lastInput (data cnv) <= currentTick (data cnv) ->
    currentTick (data cnv) < Uint32_modulus ->
    0 <= lastInput (data cnv') <= currentTick (data cnv')
    /\ currentTick (data cnv') < Uint32_modulus
    /\ currentTick (data cnv) <= currentTick (data cnv')
    /\ (forallb (fun ev => negb (is_input ev)) evs = true ->
          lastInput (data cnv') = lastInput (data cnv)).
Proof.
  induction evs as [|ev evs IH]; intros cnv cnv' Hw H Hord Hli Hct.
  - injection H as <-. repeat split; try lia.
  - cbn [run] in H. destruct (dispatch ev cnv) as [cnv1|] eqn:E; [|discriminate].
    destruct (dispatch_history ev cnv cnv1 Hw E) as [Hw1 Hh].
    specialize (Hh []). cbn [history] in Hh.
    assert (Hstep :
      ticks_ordered evs (currentTick (data cnv1)) = true
      /\ 0 <= lastInput (data cnv1) <= currentTick (data cnv1)
      /\ currentTick (data cnv1) < Uint32_modulus
      /\ currentTick (data cnv) <= currentTick (data cnv1)
      /\ (is_input ev = false -> lastInput (data cnv1) = lastInput (data cnv))).
    { destruct ev as [code|code|button mx my|dx dy|fileName ticks|dt ticks ticks'|];
        cbn [ticks_ordered is_input] in *; injection Hh as Hc Hl;
        rewrite <- ?Hc, <- ?Hl.
      1-5, 7: repeat split; try assumption; try lia; discriminate.
      apply andb_prop in Hord as [Hord Hrest].
      apply andb_prop in Hord as [Hle Hlt].
      apply Z.leb_le in Hle. apply Z.ltb_lt in Hlt.
      assert (Hu : u32 ticks = ticks) by (apply Z.mod_small; lia).
      rewrite Hu. repeat split; try assumption; lia. }
    destruct Hstep as (Hord1 & Hli1 & Hct1 & Hmono & Hkeep).
    destruct (IH cnv1 cnv' Hw1 H Hord1 Hli1 Hct1) as (Ha & Hb & Hc & Hd).
    repeat split; try lia.
    intros Hall. cbn [forallb] in Hall. apply andb_prop in Hall as [Hev Hrest].
    apply negb_true_iff in Hev. rewrite (Hd Hrest). exact (Hkeep Hev).
Qed.

(** X7: while the tick counter has not wrapped (the ticks the updates read
    never decrease and stay below [2^32]), in every state of a run from
    [init] the time of the last input is not ahead of the current tick, so
    that the [Uint32] difference in the idle test of [update] is their true
    difference. *)
Theorem lastInput_not_ahead
    (evs : list Event) (ticks ticks' : Z) (cnv0 cnv : CCanvas D) :
  0 <= ticks < Uint32_modulus ->
  ticks_ordered evs ticks = true ->
  run evs (init ticks ticks' cnv0) = Some cnv ->
  0 <= lastInput (data cnv) <= currentTick (data cnv)
  /\ currentTick (data cnv) < Uint32_modulus
  /\ u32 (currentTick (data cnv) - lastInput (data cnv))
     = currentTick (data cnv) - lastInput (data cnv).
Proof.
  intros Ht Hord Hrun.
  destruct (init_ticks ticks ticks' cnv0) as (Hl & Hc & Hw).
  assert (Hu : u32 ticks = ticks) by (apply Z.mod_small; exact Ht).
  destruct (run_ticks_ordered evs _ _ Hw Hrun) as (Ha & Hb & _).
  - rewrite Hc, Hu. exact Hord.
  - rewrite Hl, Hc, Hu. lia.
  - rewrite Hc, Hu. lia.
  - split; [exact Ha|]. split; [exact Hb|].
    apply Z.mod_small. unfold Uint32_modulus in *. lia.
Qed.

(** X8: the idle orbit lasts until there is input.  If the idle test of
    [update] would succeed in some state (more than 10000 ticks between the
    current tick and the last input), then after any further events that are
    not key or mouse input, the counter not having wrapped, it still
    succeeds. *)
Theorem idle_until_input (evs : list Event) (cnv cnv' : CCanvas D) :
  watchers cnv = all_watched ->
  0 <= lastInput (data cnv) <= currentTick (data cnv) ->
  currentTick (data cnv) < Uint32_modulus ->
  ticks_ordered evs (currentTick (data cnv)) = true ->
  forallb (fun ev => negb (is_input ev)) evs = true ->
  run evs cnv = Some cnv' ->
  idle (data cnv) = true ->
  idle (data cnv') = true.
Proof.
  intros Hw Hli Hct Hord Hno Hrun Hidle.
  destruct (run_ticks_ordered evs cnv cnv' Hw Hrun Hord Hli Hct)
    as (Ha & Hb & Hc & Hd).
  specialize (Hd Hno). unfold idle, idleThreshold in *.
  apply Z.ltb_lt in Hidle. apply Z.ltb_lt.
  unfold u32 in *. rewrite Z.mod_small in Hidle by lia.
  rewrite Z.mod_small by lia. lia.
Qed.

End Changes.

(** ** More on [draw] *)

Section Redraw.
Context {D : Type} {ar : Arith D} {nn : HasNaN D}.

(** X9: [draw] clears the canvas first, so its outcome does not depend on
    what was drawn before, and drawing twice gives what drawing once gives:
    no line of an earlier frame survives and none is doubled. *)
Theorem draw_idempotent (cnv cnv' : CCanvas D) :
  draw cnv = Some cnv' ->
  draw cnv' = Some cnv' /\ forall l, draw (set_drawn cnv l) = Some cnv'.
Proof.
  intros H. pose proof (draw_data _ _ H) as Hdata.
  pose proof (draw_frame _ _ H) as Hframe.
  assert (Hclear : CCanvas_clear cnv' = CCanvas_clear cnv).
  { rewrite <- Hframe. reflexivity. }
  split.
  - unfold draw. rewrite Hdata, Hclear. exact H.
  - intros l. exact H.
Qed.

(** What the loop of [draw] adds to the canvas: at most one line per edge,
    each the line of an edge between its two projected points. *)
Lemma draw_edges_adds (pp : list (Point D)) (es : list Edge) :
  forall cnv cnv' : CCanvas D,
    draw_edges pp es cnv = Some cnv' ->
    exists l, drawn cnv' = drawn cnv ++ l
              /\ (List.length l <= List.length es)%nat
              /\ incl l (all_segments pp es).
Proof.
  induction es as [|e es IH]; simpl; intros cnv cnv' H.
  - injection H as <-. exists []. rewrite app_nil_r.
    split; [reflexivity|]. split; [apply Nat.le_refl | apply incl_nil_l].
  - destruct (draw_edge pp e cnv) as [cnv1|] eqn:E1; [|discriminate].
    destruct (IH cnv1 cnv' H) as (l & Hl & Hlen & Hin).
    unfold draw_edge in E1. unfold all_segments. cbn [flat_map].
    fold (all_segments pp es).
    destruct (nth_error pp (a e)) as [pa|]; [|discriminate].
    destruct (dneq (x pa) NAN).
    + destruct (nth_error pp (b e)) as [pb|]; [|discriminate].
      destruct (dneq (x pb) NAN && dneq (y pa) NAN && dneq (y pb) NAN);
        injection E1 as <-.
      * exists (segment_between pa pb :: l). cbn [drawn CCanvas_preciseLine set_drawn] in Hl.
        rewrite Hl, <- app_assoc. split; [reflexivity|].
        split; [simpl; lia|].
        intros s [<-|Hs]; [now left | right; apply Hin, Hs].
      * exists l. split; [exact Hl|]. split; [lia|].
        intros s Hs. right. apply Hin, Hs.
    + injection E1 as <-. exists l. split; [exact Hl|]. split; [lia|].
      intros s Hs. apply in_or_app. right. apply Hin, Hs.
Qed.

(** X10: in every arithmetic, what [draw] leaves on the canvas is at most
    one line per edge, and each line joins the two projected points of some
    edge of the scene; nothing else is ever drawn. *)
Theorem draw_draws_edges_only (cnv cnv' : CCanvas D) :
  draw cnv = Some cnv' ->
  let s := scene (data cnv) in
  (List.length (drawn cnv') <= List.length (edges s))%nat
  /\ forall sg, In sg (drawn cnv') ->
       exists e pa pb,
         In e (edges s)
         /\ nth_error (projectedPoints s) (a e) = Some pa
         /\ nth_error (projectedPoints s) (b e) = Some pb
         /\ sg = segment_between pa pb.
Proof.
  intros H. cbv zeta. unfold draw in H.
  destruct (draw_edges_adds _ _ _ _ H) as (l & Hl & Hlen & Hin).
  cbn [drawn CCanvas_clear set_drawn app] in Hl. rewrite Hl.
  split; [exact Hlen|].
  intros sg Hsg. apply Hin in Hsg. unfold all_segments in Hsg.
  apply in_flat_map in Hsg as (e & He & Hs).
  destruct (nth_error (projectedPoints (scene (data cnv))) (a e)) as [pa|] eqn:Ea;
    [|destruct Hs].
  destruct (nth_error (projectedPoints (scene (data cnv))) (b e)) as [pb|] eqn:Eb;
    [|destruct Hs].
  destruct Hs as [<-|[]]. exists e, pa, pb. repeat split; assumption.
Qed.

End Redraw.

(** In binary64 the loop of [draw] reads both endpoints of every edge. *)
Lemma B64_draw_edges_in_range (pp : list (Point B64.double)) (es : list Edge) :
  forall cnv cnv' : CCanvas B64.double,
    draw_edges pp es cnv = Some cnv' ->
    Forall (edge_in_range (List.length pp)) es.
Proof.
  induction es as [|e es IH]; simpl; intros cnv cnv' H; [constructor|].
  destruct (draw_edge pp e cnv) as [cnv1|] eqn:E1; [|discriminate].
  constructor; [|exact (IH cnv1 cnv' H)].
  unfold draw_edge in E1.
  destruct (nth_error pp (a e)) as [pa|] eqn:Ea; [|discriminate].
  rewrite B64_neq_NAN in E1.
  destruct (nth_error pp (b e)) as [pb|] eqn:Eb; [|discriminate].
  split; apply nth_error_Some; congruence.
Qed.

(** With every edge in range there is one line per edge. *)
Lemma all_segments_length {D : Type} (pp : list (Point D)) (es : list Edge) :
  Forall (edge_in_range (List.length pp)) es ->
  List.length (all_segments pp es) = List.length es.
Proof.
  induction 1 as [|e es [Ha Hb] _ IH]; [reflexivity|].
  unfold all_segments in *. cbn [flat_map]. rewrite length_app, IH.
  apply nth_error_Some in Ha, Hb.
  destruct (nth_error pp (a e)); [|congruence].
  destruct (nth_error pp (b e)); [|congruence]. reflexivity.
Qed.

(** X11: in binary64 [draw] runs without reading out of bounds exactly when
    both indices of every edge are within the projected points, and then
    draws as many lines as there are edges, the line of each edge in the
    order of the edge list. *)
Theorem B64_draw_reads_every_endpoint (cnv : CCanvas B64.double) :
  let s := scene (data cnv) in
  ((exists cnv', draw cnv = Some cnv')
   <-> Forall (edge_in_range (List.length (projectedPoints s))) (edges s))
  /\ forall cnv', draw cnv = Some cnv' ->
       drawn cnv' = all_segments (projectedPoints s) (edges s)
       /\ List.length (drawn cnv') = List.length (edges s).
Proof.
  cbv zeta. split; [split|].
  - intros [cnv' H]. unfold draw in H. exact (B64_draw_edges_in_range _ _ _ _ H).
  - intros H. unfold draw. apply draw_edges_in_range, H.
  - intros cnv' H. pose proof (B64_draw_never_skips _ _ H) as Hd.
    split; [exact Hd|]. rewrite Hd. apply all_segments_length.
    unfold draw in H. exact (B64_draw_edges_in_range _ _ _ _ H).
Qed.

(** ** Loading and the stored radius *)

Section Reload.
Context {D : Type} {ar : Arith D} {lm : Libm D} {co : Collaborators D}.
Local Open Scope double_scope.

(** X12: a file drop measures the scene it has just loaded before it places
    the camera: the stored radius is [Scene_radius] of the loaded scene and
    the camera is put on the orbit of that radius, not of the one stored
    before.  It is not an input: the time of the last input, like the current
    tick, the velocity, the flags, [moveForce] and all of the canvas but the
    application data, is left as it was. *)
Theorem onFileDrop_measures_then_places
    (ticks : Z) (cnv : CCanvas D) (fileName : string) :
  let app := data cnv in
  let loaded := Scene_loadObj (Scene_free (scene app)) fileName in
  let r := Scene_radius loaded in
  let cnv' := onFileDrop ticks cnv fileName in
  let app' := data cnv' in
  sceneRadius app' = r
  /\ pos (cam (scene app'))
     = Vec3_cylindrical r (of_int (u32 ticks) / of_int 2000) (r / lit 12 10)
  /\ lastInput app' = lastInput app
  /\ currentTick app' = currentTick app
  /\ vel app' = vel app
  /\ moveForce app' = moveForce app
  /\ set_moving app' (movingForward app) (movingBackward app) (movingLeft app)
       (movingRight app) (movingUp app) (movingDown app) = app'
  /\ set_data cnv' app = cnv.
Proof.
  cbv zeta.
  destruct cnv as [[s v mf f1 f2 f3 f4 f5 f6 r li ct] bg br dr wt rm].
  repeat split.
Qed.

End Reload.

(** ** Keys that cancel, in binary64 *)

(** A number minus itself is a zero. *)
Lemma B64_sub_diag (t : B64.double) :
  B64_is_number t = true -> B64_is_zero (dsub t t) = true.
Proof.
  destruct t as [s|s| |s m e]; try discriminate; intros _.
  - destruct s; reflexivity.
  - cbn [dsub B64.arith]. unfold SFsub. rewrite Z.sub_diag. reflexivity.
Qed.

(** A zero plus a number is that number or, for two zeros, a zero. *)
Lemma B64_zero_add (z t : B64.double) :
  B64_is_zero z = true -> B64_is_number t = true ->
  B64_is_zero (dsub (dadd z t) t) = true /\ B64_is_number (dadd z t) = true.
Proof.
  destruct z as [sz|sz| |sz mz ez]; try discriminate.
  destruct t as [st|st| |s m e]; try discriminate; intros _ _.
  - destruct sz, st; split; reflexivity.
  - change (dadd (S754_zero sz) (S754_finite s m e)) with (S754_finite s m e).
    split; [|reflexivity]. now apply B64_sub_diag.
Qed.

(** Adding a direction of numbers to a vector of zeros and subtracting it
    again gives a vector of zeros. *)
Lemma B64_add_sub_zeros (f t : Vec3 B64.double) :
  B64_zeros f = true -> B64_numbers t = true ->
  B64_zeros (Vec3_sub (Vec3_add f t) t) = true.
Proof.
  destruct f as [fx fy fz], t as [tx ty tz]. unfold B64_zeros, B64_numbers.
  cbn [vx vy vz Vec3_add Vec3_sub].
  intros Hf Ht.
  apply andb_prop in Hf as [Hf Hfz]. apply andb_prop in Hf as [Hfx Hfy].
  apply andb_prop in Ht as [Ht Htz]. apply andb_prop in Ht as [Htx Hty].
  rewrite (proj1 (B64_zero_add fx tx Hfx Htx)),
          (proj1 (B64_zero_add fy ty Hfy Hty)),
          (proj1 (B64_zero_add fz tz Hfz Htz)).
  reflexivity.
Qed.

(** X13: in binary64, when the forward and backward keys are both held or
    both released, and likewise the left and right keys, and the two
    directions the camera reports are numbers (no NaN, no infinity), the
    horizontal force of [update] is a vector of zeros: opposite keys cancel
    exactly, and line 98 does not rescale it. *)
Theorem B64_opposite_keys_cancel
    (co : Collaborators B64.double) (app : SoftwareRenderer B64.double) :
  movingForward app = movingBackward app ->
  movingLeft app = movingRight app ->
  B64_numbers (Camera_directionForwardHorizontal (cam (scene app))) = true ->
  B64_numbers (Camera_directionRight (cam (scene app))) = true ->
  B64_zeros (update_horizontal app) = true
  /\ update_normalise (update_horizontal app) = update_horizontal app.
Proof.
  intros Hfb Hlr Hf Hr.
  assert (Hz : B64_zeros (update_horizontal app) = true).
  { unfold update_horizontal. rewrite Hfb, Hlr.
    set (z := Vec3_new (of_int 0) (of_int 0) (of_int 0)).
    assert (Hz0 : B64_zeros z = true) by reflexivity.
    set (t := Camera_directionForwardHorizontal (cam (scene app))) in *.
    set (r := Camera_directionRight (cam (scene app))) in *.
    assert (H1 : B64_zeros (if movingBackward app
                            then Vec3_sub (Vec3_add z t) t else z) = true).
    { destruct (movingBackward app); [now apply B64_add_sub_zeros | exact Hz0]. }
    destruct (movingBackward app), (movingRight app);
      try exact H1; now apply B64_add_sub_zeros. }
  split; [exact Hz|].
  unfold update_normalise. now rewrite (B64_zeros_sqLength _ Hz).
Qed.

Lemma B64_opposite_keys_cancel_witness :
  B64_zeros (update_horizontal Axes.all_keys) = true
  /\ update_normalise (update_horizontal Axes.all_keys)
     = update_horizontal Axes.all_keys.
Proof.
  apply (B64_opposite_keys_cancel Axes.collaborators Axes.all_keys); reflexivity.
Defined.

(** ** No key, no force, in binary64 *)

(** X15: in binary64, with none of the six movement flags set, the force
    that [update] adds to the velocity is the zero vector times
    [sceneRadius * dt * moveForce * 0.01].  When that scalar is a number the
    force is a vector of zeros and adding it leaves every component of the
    velocity as it was (but for the sign of a zero); when the scalar has
    overflowed to an infinity or is a NaN, the force is a vector of NaNs, and
    so is the velocity after it has been added. *)
Theorem B64_no_key_no_force
    (co : Collaborators B64.double) (dt : B64.double)
    (app : SoftwareRenderer B64.double) :
  movingForward app = false -> movingBackward app = false ->
  movingLeft app = false -> movingRight app = false ->
  movingUp app = false -> movingDown app = false ->
  let s := (sceneRadius app * dt * moveForce app * lit 1 100)%D in
  let v' := Vec3_add (vel app) (update_force dt app) in
  (B64_is_number s = true ->
     B64_zeros (update_force dt app) = true
     /\ B64_unchanged (vx (vel app)) (vx v')
     /\ B64_unchanged (vy (vel app)) (vy v')
     /\ B64_unchanged (vz (vel app)) (vz v'))
  /\ (B64_is_number s = false ->
        B64_nans (update_force dt app) = true /\ B64_nans v' = true).
Proof.
  intros H1 H2 H3 H4 H5 H6. cbv zeta.
  assert (Hd : update_direction app = mkVec3 (of_int 0) (of_int 0) (of_int 0)).
  { unfold update_direction, update_horizontal. rewrite H1, H2, H3, H4, H5, H6.
    reflexivity. }
  unfold update_force. rewrite Hd.
  set (s := (sceneRadius app * dt * moveForce app * lit 1 100)%D).
  destruct (vel app) as [a b c]. unfold Vec3_add, Vec3_mult. cbn [vx vy vz].
  change (@of_int B64.double _ 0) with (S754_zero false).
  split; intros Hs.
  - assert (Hu : forall u, B64_unchanged u (u + S754_zero false * s)%D).
    { intros u. unfold B64_unchanged.
      destruct s as [ss|ss| |ss ms es]; try discriminate;
        destruct u as [su|su| |su mu eu]; cbn;
        try (now left); destruct su, ss; cbn; auto. }
    split; [|split; [apply Hu | split; apply Hu]].
    destruct s as [ss|ss| |ss ms es]; try discriminate; reflexivity.
  - destruct s as [ss|ss| |ss ms es]; try discriminate;
      split; try reflexivity; destruct a, b, c; reflexivity.
Qed.

(** ** The further properties at work *)

Lemma reachable_configured_witness : configured Sample.started.
Proof. apply (reachable_configured Sample.started). apply reachable_init. Defined.

Lemma flags_mirror_keys_witness :
  let evs := [EvKeyDown SDLK_w; EvKeyDown SDLK_d; EvKeyUp SDLK_w] in
  let cnv := onKeyUp (onKeyDown (onKeyDown Sample.started SDLK_w) SDLK_d) SDLK_w in
  run evs (init 0 0 zeroed) = Some cnv
  /\ movingForward (data cnv) = false
  /\ movingRight (data cnv) = true.
Proof.
  cbv zeta. split; [reflexivity|].
  pose proof (flags_mirror_keys
                [EvKeyDown SDLK_w; EvKeyDown SDLK_d; EvKeyUp SDLK_w] 0 0 zeroed
                (onKeyUp (onKeyDown (onKeyDown Sample.started SDLK_w) SDLK_d) SDLK_w)
                eq_refl) as H.
  destruct H as (H1 & _ & _ & H4 & _).
  split; [exact H1 | exact H4].
Defined.

Lemma mouse_mode_follows_clicks_and_escape_witness :
  let evs := [EvMouseButtonDown SDL_BUTTON_LEFT 5 5; EvKeyDown SDLK_ESCAPE] in
  let cnv := onKeyDown (onMouseButtonDown Sample.started SDL_BUTTON_LEFT 5 5)
                       SDLK_ESCAPE in
  run evs (init 0 0 zeroed) = Some cnv /\ relativeMouseMode cnv = false.
Proof.
  cbv zeta. split; [reflexivity|].
  exact (mouse_mode_follows_clicks_and_escape
           [EvMouseButtonDown SDL_BUTTON_LEFT 5 5; EvKeyDown SDLK_ESCAPE] 0 0 zeroed
           (onKeyDown (onMouseButtonDown Sample.started SDL_BUTTON_LEFT 5 5) SDLK_ESCAPE)
           eq_refl).
Defined.

Lemma run_changes_witness :
  let evs := [EvKeyDown SDLK_w; EvMouseMove 3 4] in
  let cnv := onMouseMove (onKeyDown Sample.started SDLK_w) 3 4 in
  run evs Sample.started = Some cnv
  /\ vertices (scene (data cnv)) = vertices (scene (data Sample.started))
  /\ vel (data cnv) = vel (data Sample.started).
Proof.
  cbv zeta. split; [reflexivity|].
  pose proof (run_changes [EvKeyDown SDLK_w; EvMouseMove 3 4] Sample.started
                (onMouseMove (onKeyDown Sample.started SDLK_w) 3 4) eq_refl) as H.
  destruct H as [Hg Hv].
  split; [exact (proj1 (Hg eq_refl)) | exact (proj1 (Hv eq_refl))].
Defined.

Lemma lastInput_not_ahead_witness :
  let evs := [EvUpdate (of_int 16) 100 100; EvKeyDown SDLK_w;
              EvUpdate (of_int 16) 200 200] in
  let cnv := update (of_int 16) 200 200
               (onKeyDown (update (of_int 16) 100 100 Sample.started) SDLK_w) in
  0 <= 0 < Uint32_modulus
  /\ ticks_ordered evs 0 = true
  /\ run evs (init 0 0 zeroed) = Some cnv
  /\ 0 <= lastInput (data cnv) <= currentTick (data cnv).
Proof.
  cbv zeta.
  assert (H0 : 0 <= 0 < Uint32_modulus) by (split; [lia | reflexivity]).
  split; [exact H0|]. split; [reflexivity|]. split; [reflexivity|].
  pose proof (lastInput_not_ahead
                [EvUpdate (of_int 16) 100 100; EvKeyDown SDLK_w;
                 EvUpdate (of_int 16) 200 200] 0 0 zeroed
                (update (of_int 16) 200 200
                   (onKeyDown (update (of_int 16) 100 100 Sample.started) SDLK_w))
                H0 eq_refl eq_refl) as H.
  exact (proj1 H).
Defined.

Lemma idle_until_input_witness :
  let cnv := update (of_int 16) 20000 20000 Sample.started in
  let evs := [EvFileDrop "missing.obj" 20001; EvUpdate (of_int 16) 20016 20016] in
  let cnv' := update (of_int 16) 20016 20016 (onFileDrop 20001 cnv "missing.obj") in
  idle (data cnv) = true
  /\ run evs cnv = Some cnv'
  /\ idle (data cnv') = true.
Proof.
  cbv zeta. split; [reflexivity|]. split; [reflexivity|].
  apply (idle_until_input
           [EvFileDrop "missing.obj" 20001; EvUpdate (of_int 16) 20016 20016]
           (update (of_int 16) 20000 20000 Sample.started)).
  - reflexivity.
  - split; lazy; discriminate.
  - reflexivity.
  - reflexivity.
  - reflexivity.
  - reflexivity.
  - reflexivity.
Defined.

Lemma draw_idempotent_witness :
  exists cnv', draw Marked.canvas = Some cnv' /\ draw cnv' = Some cnv'.
Proof.
  destruct (draw Marked.canvas) as [cnv'|] eqn:E; [|discriminate E].
  exists cnv'. split; [reflexivity|].
  exact (proj1 (draw_idempotent Marked.canvas cnv' E)).
Defined.

Lemma draw_draws_edges_only_witness :
  exists cnv',
    draw Marked.canvas = Some cnv'
    /\ (List.length (drawn cnv') <= List.length (edges (scene (data Marked.canvas))))%nat.
Proof.
  destruct (draw Marked.canvas) as [cnv'|] eqn:E; [|discriminate E].
  exists cnv'. split; [reflexivity|].
  exact (proj1 (draw_draws_edges_only Marked.canvas cnv' E)).
Defined.

Lemma B64_draw_reads_every_endpoint_witness :
  (exists cnv', draw Marked.canvas = Some cnv')
  /\ Forall (edge_in_range (List.length (projectedPoints (scene (data Marked.canvas)))))
            (edges (scene (data Marked.canvas))).
Proof.
  assert (H : exists cnv', draw Marked.canvas = Some cnv')
    by (eexists; reflexivity).
  split; [exact H|].
  exact (proj1 (proj1 (B64_draw_reads_every_endpoint Marked.canvas)) H).
Defined.

Lemma B64_no_key_no_force_witness :
  let slow := Axes.coasting (of_int 1) in
  let huge := Axes.coasting (S754_finite false 4503599627370496 971) in
  (B64_zeros (update_force (of_int 16) slow) = true
   /\ Vec3_add (vel slow) (update_force (of_int 16) slow) = vel slow)
  /\ B64_nans (Vec3_add (vel huge) (update_force (of_int 4) huge)) = true.
Proof.
  cbv zeta.
  pose proof (B64_no_key_no_force Axes.collaborators (of_int 16)
                (Axes.coasting (of_int 1))
                eq_refl eq_refl eq_refl eq_refl eq_refl eq_refl) as H1.
  pose proof (B64_no_key_no_force Axes.collaborators (of_int 4)
                (Axes.coasting (S754_finite false 4503599627370496 971))
                eq_refl eq_refl eq_refl eq_refl eq_refl eq_refl) as H2.
  cbv zeta in H1, H2.
  split.
  - split; [exact (proj1 (proj1 H1 eq_refl)) | reflexivity].
  - exact (proj2 (proj2 H2 eq_refl)).
Defined.
